(** * process_management.py: a model of the lab's process demonstrations

    The program forks children, replaces their image, reaps them, inspects
    /proc and plays with niceness.  Its Python code is embedded here as
    functions over an explicit [world]: the part of the operating system the
    parent process can observe (its table of unreaped children, its standard
    output, the system calls it made).  What the operating system decides on
    its own (which PID a fork returns, which terminated child a wait delivers,
    what an exec finds, what /proc holds) is read from a [machine], and the
    theorems hold for every machine. *)

From Stdlib Require Import ZArith List String Ascii Bool Lia Permutation.
From Equations Require Import Equations.
From Equations.Prop Require Import Logic.
Import ListNotations.
Open Scope string_scope.
Open Scope list_scope.
Open Scope Z_scope.

(** ** Python values *)

Definition pid := Z.

(** The exceptions the program can meet.  All of them are subclasses of
    [Exception]; [ChildProcessError] and [FileNotFoundError] are [OSError]s,
    and [OSError msg] stands for any other one (PermissionError, ...). *)
Inductive exn : Type :=
| ChildProcessError
| FileNotFoundError (what : string)
| IndexError
| ValueError (msg : string)
| OSError (msg : string).

(** A printed line, piece by piece as the f-string builds it: literal text and
    the values formatted into it. *)
Inductive frag : Type :=
| Txt (s : string)
| Num (z : Z)
| Strs (l : list string)
| Nums (l : list Z)
| Tup (p : Z) (status : Z)
| Err (e : exn).

Definition line := list frag.

(** [range(n)]: empty when [n <= 0]. *)
Definition range (n : Z) : list Z := map Z.of_nat (seq 0 (Z.to_nat n)).

(** [l[:n]]: a negative [n] counts from the end. *)
Definition slice_to {A : Type} (l : list A) (n : Z) : list A :=
  if 0 <=? n then firstn (Z.to_nat n) l
  else firstn (Z.to_nat (Z.of_nat (List.length l) + n)) l.

(** [s.startswith((p1, p2, ...))] *)
Definition startswith_any (prefixes : list string) (s : string) : bool :=
  existsb (fun p => String.prefix p s) prefixes.

(** [sub in s] *)
Definition contains (sub s : string) : bool :=
  match String.index 0 sub s with
  | Some _ => true
  | None => false
  end.

(** A [string] holds a Python [str] in its UTF-8 encoding, one [ascii] for
    each byte.  Prefix and substring tests with ASCII patterns and the lexer
    of [shlex] read the bytes as they would read the characters; [strip] has
    to know the encodings of the characters [str.isspace()] accepts:
    - one byte: tab to carriage return (9 to 13), the separators 28 to 31 and
      the space;
    - two bytes: U+0085 (C2 85) and U+00A0 (C2 A0);
    - three bytes: U+1680 (E1 9A 80), U+2000 to U+200A (E2 80 80 to E2 80 8A),
      U+2028, U+2029, U+202F (E2 80 A8, E2 80 A9, E2 80 AF), U+205F (E2 81 9F)
      and U+3000 (E3 80 80). *)
Definition space1 (a : ascii) : bool :=
  let n := nat_of_ascii a in
  ((9 <=? n) && (n <=? 13) || (28 <=? n) && (n <=? 32))%nat.

Definition space2 (a b : ascii) : bool :=
  let x := nat_of_ascii a in
  let y := nat_of_ascii b in
  ((x =? 194) && ((y =? 133) || (y =? 160)))%nat.

Definition space3 (a b c : ascii) : bool :=
  let x := nat_of_ascii a in
  let y := nat_of_ascii b in
  let z := nat_of_ascii c in
  ((x =? 225) && (y =? 154) && (z =? 128)
   || (x =? 226) && (y =? 128)
      && ((128 <=? z) && (z <=? 138) || (z =? 168) || (z =? 169) || (z =? 175))
   || (x =? 226) && (y =? 129) && (z =? 159)
   || (x =? 227) && (y =? 128) && (z =? 128))%nat.

(** Drops the whitespace characters at the front of a text.  [sp2] and [sp3]
    recognise the characters of two and three bytes: in the order of the
    encoding for the text itself, in the opposite order for a text that is
    read from its end. *)
Fixpoint strip_front (sp2 : ascii -> ascii -> bool) (sp3 : ascii -> ascii -> ascii -> bool)
    (s : list ascii) : list ascii :=
  match s with
  | [] => []
  | a :: s1 =>
      if space1 a then strip_front sp2 sp3 s1
      else
        match s1 with
        | [] => s
        | b :: s2 =>
            if sp2 a b then strip_front sp2 sp3 s2
            else
              match s2 with
              | [] => s
              | c :: s3 => if sp3 a b c then strip_front sp2 sp3 s3 else s
              end
        end
  end.

Definition lstrip (s : list ascii) : list ascii := strip_front space2 space3 s.

(** [rstrip] of a text, given and returned last byte first. *)
Definition rstrip_rev (s : list ascii) : list ascii :=
  strip_front (fun a b => space2 b a) (fun a b c => space3 c b a) s.

(** [s.strip()] *)
Definition strip (s : string) : string :=
  string_of_list_ascii
    (rev (rstrip_rev (rev (lstrip (list_ascii_of_string s))))).

(** The busy loop of a task 5 child:
    [s = 0; for k in range(iterations): s += (k & 1)]. *)
Definition busy_work (iterations : Z) : Z :=
  fold_left (fun s k => s + Z.land k 1) (range iterations) 0.

(** ** [shlex.split]

    The command line of task 2 goes through [shlex.split(cmd)] of Python's
    standard library: a [shlex] lexer in POSIX mode, with [whitespace_split]
    set and no comment characters, read until its first [None] token.  [lex]
    is the character loop of [shlex.read_token], carried across the tokens:
    the lexer's [state] (' ' between words, 'a' inside a word, a quote
    character inside quotes, the escape character after a backslash, with
    [escapedstate] the state to go back to), the [token] built so far and
    whether it is [quoted]. *)

Definition dquote : ascii := "034".
Definition squote : ascii := "039".
Definition backslash : ascii := "092".

(** [whitespace = ' \t\r\n'] *)
Definition is_whitespace (c : ascii) : bool :=
  Ascii.eqb c " " || Ascii.eqb c "009" || Ascii.eqb c "013" || Ascii.eqb c "010".

(** [quotes], [escape], [escapedquotes] *)
Definition is_quote (c : ascii) : bool := Ascii.eqb c squote || Ascii.eqb c dquote.
Definition is_escape (c : ascii) : bool := Ascii.eqb c backslash.
Definition is_escapedquote (c : ascii) : bool := Ascii.eqb c dquote.

Inductive lex_state : Type :=
| InWhite                       (* state ' ' *)
| InWord                        (* state 'a' *)
| InQuote (q : ascii)           (* state in quotes *)
| InEscape (back : option ascii).  (* state in escape; escapedstate 'a' or a quote *)

Definition nonempty (s : string) : bool :=
  match s with
  | EmptyString => false
  | _ => true
  end.

Definition snoc (tok : string) (c : ascii) : string := (tok ++ String c EmptyString)%string.

(** The token [read_token] hands back at the end of the input, and the end of
    the iteration: an empty token that was never quoted is [None]. *)
Definition last_token (tok : string) (quoted : bool) : list string :=
  if quoted || nonempty tok then [tok] else [].

Definition cons_token (tok : string) (r : exn + list string) : exn + list string :=
  match r with
  | inl e => inl e
  | inr toks => inr (tok :: toks)
  end.

Fixpoint lex (st : lex_state) (tok : string) (quoted : bool) (s : string)
  : exn + list string :=
  match s with
  | EmptyString =>
      match st with
      | InWhite | InWord => inr (last_token tok quoted)
      | InQuote _ => inl (ValueError "No closing quotation")
      | InEscape _ => inl (ValueError "No escaped character")
      end
  | String c s' =>
      match st with
      | InWhite =>
          if is_whitespace c then
            if quoted || nonempty tok
            then cons_token tok (lex InWhite EmptyString false s')
            else lex InWhite tok quoted s'
          else if is_escape c then lex (InEscape None) tok quoted s'
          else if is_quote c then lex (InQuote c) tok quoted s'
          else lex InWord (String c EmptyString) quoted s'
      | InQuote q =>
          if Ascii.eqb c q then lex InWord tok true s'
          else if is_escape c && is_escapedquote q
          then lex (InEscape (Some q)) tok true s'
          else lex (InQuote q) (snoc tok c) true s'
      | InEscape None => lex InWord (snoc tok c) quoted s'
      | InEscape (Some q) =>
          if negb (Ascii.eqb c backslash) && negb (Ascii.eqb c q)
          then lex (InQuote q) (snoc (snoc tok backslash) c) quoted s'
          else lex (InQuote q) (snoc tok c) quoted s'
      | InWord =>
          if is_whitespace c then
            if quoted || nonempty tok
            then cons_token tok (lex InWhite EmptyString false s')
            else lex InWhite tok quoted s'
          else if is_quote c then lex (InQuote c) tok quoted s'
          else if is_escape c then lex (InEscape None) tok quoted s'
          else lex InWord (snoc tok c) quoted s'
      end
  end.

Definition shlex_split (s : string) : exn + list string := lex InWhite EmptyString false s.

(** ** Processes as the parent sees them *)

(** How a child ends: [os._exit(code)] or a return from its new image, death
    by a signal (with or without a core dump), or never. *)
Inductive fate : Type :=
| Exited (code : Z)
| Killed (sig : Z) (core : bool)
| Forever.

(** What a child does with its life: the niceness increment it asks for, the
    lines it prints, and how it ends. *)
Record behaviour : Type := mkBehaviour {
  b_nice : option Z;
  b_out : list line;
  b_fate : fate
}.

Record child : Type := mkChild {
  c_pid : pid;
  c_run : behaviour
}.

Definition terminates (c : child) : bool :=
  match b_fate (c_run c) with
  | Forever => false
  | _ => true
  end.

(** The status word [os.wait()] reports: the low byte of the exit code in bits
    8 to 15, or the signal number in bits 0 to 6 with bit 7 set when the
    child dumped core. *)
Definition wstatus (f : fate) : Z :=
  match f with
  | Exited code => Z.shiftl (Z.land code 255) 8
  | Killed sig core => Z.lor (Z.land sig 127) (if core then 128 else 0)
  | Forever => 0
  end.

(** ** The introspection file system *)

Record proc_entry : Type := mkProcEntry {
  (** lines the status file yields, and the error that ends the reading early
      (an [open] that fails yields no line) *)
  pe_status : list string * option exn;
  (** target of the exe link *)
  pe_exe : exn + string;
  (** entries of fd/, each with the target of its link *)
  pe_fd : exn + list (string * (exn + string))
}.

(** ** System calls, the world and the machine *)

Inductive event : Type :=
| EvFork (c : child)
| EvWait (r : option (pid * Z))   (* [None]: ECHILD *)
| EvBlocked                       (* a wait that never returns *)
| EvPs
| EvStat (p : Z)
| EvOpenStatus (p : Z)
| EvReadlinkExe (p : Z)
| EvListFd (p : Z)
| EvReadlinkFd (p : Z) (name : string).

Record world : Type := mkWorld {
  w_self : pid;
  w_table : list child;    (* children not reaped yet, oldest first *)
  w_out : list line;       (* what this process printed *)
  w_log : list event       (* the system calls it made, oldest first *)
}.

(** What [os.execvp(argv[0], argv)] leads to. *)
Inductive exec_outcome : Type :=
| ExecFails (e : exn)
| ExecRuns (out : list line) (f : fate).

Record machine : Type := mkMachine {
  m_platform : string;                       (* platform.system() *)
  m_alloc : list pid -> pid;                 (* PID of the next child, given the PIDs in use *)
  m_sched : list child -> nat;               (* which terminated child the next wait delivers *)
  m_exec : list string -> exec_outcome;
  m_ps : exn + list string;                  (* stdout of [ps -el], line by line *)
  m_reaper : pid;                            (* who adopts an orphan *)
  m_parent_seen : nat -> bool;               (* is the orphan's parent still there at its k-th getppid() *)
  m_procfs : Z -> option proc_entry          (* /proc/<pid>, when it exists *)
}.

(** ** Results and the monad of the parent's code *)

Inductive res (A : Type) : Type :=
| Ret (a : A)
| Raise (e : exn)       (* an exception on its way up *)
| Halt (code : Z)       (* sys.exit(code), os._exit(code) *)
| Blocked.              (* stuck in a system call for ever *)
Arguments Ret {A} a.
Arguments Raise {A} e.
Arguments Halt {A} code.
Arguments Blocked {A}.

Definition M (A : Type) : Type := world -> res A * world.

Definition ret {A : Type} (a : A) : M A := fun w => (Ret a, w).

Definition bind {A B : Type} (c : M A) (k : A -> M B) : M B := fun w =>
  match c w with
  | (Ret a, w') => k a w'
  | (Raise e, w') => (Raise e, w')
  | (Halt code, w') => (Halt code, w')
  | (Blocked, w') => (Blocked, w')
  end.

Declare Scope py_scope.
Delimit Scope py_scope with py.
Notation "x <- c ;; k" := (bind c (fun x => k))
  (at level 61, c at next level, right associativity) : py_scope.
Notation "' pat <- c ;; k" := (bind c (fun x => match x with pat => k end))
  (at level 61, pat pattern, c at next level, right associativity) : py_scope.
Notation "c ;; k" := (bind c (fun _ => k))
  (at level 61, right associativity) : py_scope.
Open Scope py_scope.

Definition raise {A : Type} (e : exn) : M A := fun w => (Raise e, w).

Definition halt {A : Type} (code : Z) : M A := fun w => (Halt code, w).

(** [try: c except ...: h e].  The handler says which exceptions it takes. *)
Definition try_except {A : Type} (c : M A) (h : exn -> option (M A)) : M A := fun w =>
  match c w with
  | (Raise e, w') =>
      match h e with
      | Some k => k w'
      | None => (Raise e, w')
      end
  | r => r
  end.

(** [for x in l: s = body x s] *)
Fixpoint for_each {A S : Type} (l : list A) (body : A -> S -> M S) (s : S) : M S :=
  match l with
  | [] => ret s
  | x :: l' => s' <- body x s ;; for_each l' body s'
  end.

Definition add_out (ln : line) (w : world) : world :=
  mkWorld (w_self w) (w_table w) (w_out w ++ [ln]) (w_log w).

Definition add_log (e : event) (w : world) : world :=
  mkWorld (w_self w) (w_table w) (w_out w) (w_log w ++ [e]).

Definition set_table (t : list child) (w : world) : world :=
  mkWorld (w_self w) t (w_out w) (w_log w).

Definition print (ln : line) : M unit := fun w => (Ret tt, add_out ln w).

Definition getpid : M pid := fun w => (Ret (w_self w), w).

Definition pids_in_use (w : world) : list pid := w_self w :: map c_pid (w_table w).

(** The [i]-th (from 0) terminated child of a table, and the table without it. *)
Fixpoint take_dead (i : nat) (t : list child) : option (child * list child) :=
  match t with
  | [] => None
  | c :: t' =>
      if terminates c then
        match i with
        | O => Some (c, t')
        | S j => option_map (fun dr => (fst dr, c :: snd dr)) (take_dead j t')
        end
      else option_map (fun dr => (fst dr, c :: snd dr)) (take_dead i t')
  end.

Lemma take_dead_length (i : nat) (t : list child) (d : child) (rest : list child) :
  take_dead i t = Some (d, rest) -> List.length t = S (List.length rest).
Proof.
  revert i d rest. induction t as [|c t IH]; intros i d rest H; simpl in H; [discriminate|].
  destruct (terminates c).
  - destruct i as [|j].
    + injection H as _ <-. reflexivity.
    + destruct (take_dead j t) as [[d' r']|] eqn:E; simpl in H; [|discriminate].
      injection H as _ <-. simpl. f_equal. eapply IH, E.
  - destruct (take_dead i t) as [[d' r']|] eqn:E; simpl in H; [|discriminate].
    injection H as _ <-. simpl. f_equal. eapply IH, E.
Qed.

Section Kernel.

Variable m : machine.

(** [os.fork()], as the parent sees it: a new entry in its table under the PID
    the machine hands out.  What the new process does (the [if pid == 0]
    branch of the code) is the [body], given its own PID and its parent's. *)
Definition os_fork (body : pid -> pid -> behaviour) : M pid := fun w =>
  let p := m_alloc m (pids_in_use w) in
  let c := mkChild p (body p (w_self w)) in
  (Ret p, add_log (EvFork c) (set_table (w_table w ++ [c]) w)).

(** [os.wait()]: ECHILD without children; otherwise the status of one
    terminated child, which leaves the table; blocked while none terminates. *)
Definition os_wait : M (pid * Z) := fun w =>
  match w_table w with
  | [] => (Raise ChildProcessError, add_log (EvWait None) w)
  | _ =>
      let dead := filter terminates (w_table w) in
      match take_dead (Nat.modulo (m_sched m dead) (List.length dead)) (w_table w) with
      | Some (c, rest) =>
          let r := (c_pid c, wstatus (b_fate (c_run c))) in
          (Ret r, add_log (EvWait (Some r)) (set_table rest w))
      | None => (Blocked, add_log EvBlocked w)
      end
  end.

(** ** Task 1: create N children and wait *)

Definition child1 (i : Z) (me parent : pid) : behaviour :=
  mkBehaviour None
    [[Txt "[Child] PID="; Num me; Txt " PPID="; Num parent;
      Txt " Message='Hello from child "; Num (i + 1); Txt "'"]]
    (Exited 0).

Definition task1_create_children (n : Z) : M unit :=
  me <- getpid ;;
  print [Txt "[Task 1] Parent PID: "; Num me; Txt ", creating "; Num n; Txt " children"] ;;
  children <- for_each (range n) (fun i children =>
      p <- os_fork (child1 i) ;;
      print [Txt "[Parent] spawned child PID="; Num p] ;;
      ret (children ++ [p])) [] ;;
  for_each children (fun _ _ =>
      ' (waited_pid, status) <- os_wait ;;
      print [Txt "[Parent] wait() returned pid="; Num waited_pid; Txt " status="; Num status]) tt ;;
  print [Txt "[Task 1] All children reaped."].

(** ** The reap loop of tasks 2 and 5

    [while True: pid, status = os.wait(); ...] inside (task 2) or under
    (task 5) a [try] whose [except ChildProcessError] leaves the loop.  Each
    round prints [report pid status]; task 5 also appends the PID to [order].
    A wait that succeeds takes a child out of the table, which is why the loop
    is well founded. *)
Equations? reap_until_echild (report : pid -> Z -> line) (order : list pid) (w : world)
  : res (list pid) * world by wf (List.length (w_table w)) lt :=
reap_until_echild report order w with inspect (os_wait w) := {
  | exist _ (Ret (p, status), w1) _ =>
      reap_until_echild report (order ++ [p]) (add_out (report p status) w1);
  | exist _ (Raise ChildProcessError, w1) _ => (Ret order, w1);
  | exist _ (Raise e, w1) _ => (Raise e, w1);
  | exist _ (Halt code, w1) _ => (Halt code, w1);
  | exist _ (Blocked, w1) _ => (Blocked, w1) }.
Proof.
  unfold os_wait in e. destruct (w_table w) as [|c t] eqn:Ht; [discriminate|].
  destruct (take_dead _ (c :: t)) as [[d rest]|] eqn:Htd; [|discriminate].
  injection e as _ _ <-. simpl.
  apply take_dead_length in Htd. simpl in Htd. lia.
Qed.

(** ** Task 2: exec / run commands from children *)

(** A child that dies of an exception nobody catches: the traceback goes to
    stderr and the interpreter exits with status 1. *)
Definition crash (out : list line) : behaviour := mkBehaviour None out (Exited 1).

Definition child2 (use_exec : bool) (argv : list string) (i : Z) (me parent : pid)
  : behaviour :=
  let hello := [Txt "[Child "; Num (i + 1); Txt "] PID="; Num me; Txt " PPID="; Num parent;
                Txt " ABOUT TO RUN: "; Strs argv] in
  match argv with
  | [] => crash [hello]                       (* argv[0]: IndexError *)
  | prog :: _ =>
      if use_exec then
        match m_exec m argv with
        | ExecFails (FileNotFoundError _) =>
            mkBehaviour None
              [hello; [Txt "[Child "; Num (i + 1); Txt "] exec failed: "; Txt prog; Txt " not found"]]
              (Exited 1)
        | ExecFails _ => crash [hello]
        | ExecRuns out f => mkBehaviour None (hello :: out) f
        end
      else
        match m_exec m argv with            (* subprocess.run(argv) *)
        | ExecFails _ => crash [hello]
        | ExecRuns out Forever => mkBehaviour None (hello :: out) Forever
        | ExecRuns out _ =>
            mkBehaviour None
              (hello :: out ++ [[Txt "[Child "; Num (i + 1); Txt "] subprocess finished, exiting"]])
              (Exited 0)
        end
  end.

Definition task2_exec_children (n : Z) (cmd : string) (use_exec : bool) : M unit :=
  argv <- match shlex_split cmd with
          | inl e => raise e
          | inr argv => ret argv
          end ;;
  me <- getpid ;;
  print [Txt "[Task 2] Parent PID="; Num me; Txt ", running "; Num n;
         Txt " children each executing: "; Strs argv] ;;
  for_each (range n) (fun i _ =>
      p <- os_fork (child2 use_exec argv i) ;;
      print [Txt "[Parent] spawned child PID="; Num p; Txt " for command"]) tt ;;
  reap_until_echild
    (fun p status => [Txt "[Parent] waited pid="; Num p; Txt " status="; Num status]) [] ;;
  print [Txt "[Task 2] All children finished."].

(** ** Task 3: zombie and orphan demonstrations *)

Definition run_ps : M (list string) := fun w =>
  match m_ps m with
  | inl e => (Raise e, add_log EvPs w)
  | inr out => (Ret out, add_log EvPs w)
  end.

Definition task3_zombie_demo : M unit :=
  print [Txt "[Task 3 - zombie] Starting demo"] ;;
  _ <- os_fork (fun me _ =>
      mkBehaviour None
        [[Txt "[Child] PID="; Num me;
          Txt " exiting immediately (becomes zombie until parent waits)."]]
        (Exited 0)) ;;
  me <- getpid ;;
  print [Txt "[Parent] PID="; Num me;
         Txt " NOT calling wait() yet. Checking for defunct processes..."] ;;
  out <- run_ps ;;
  let lines := filter (fun L => contains "defunct" L || contains "<defunct>" L) out in
  match lines with
  | _ :: _ =>
      print [Txt "[Parent] Found defunct lines (zombie):"] ;;
      for_each lines (fun L _ => print [Txt L]) tt
  | [] =>
      print [Txt "[Parent] No defunct lines found (timing may vary). Full ps output (filtered for 'defunct'):"]
  end ;;
  ' (p, status) <- os_wait ;;
  print [Txt "[Parent] After wait(): "; Tup p status] ;;
  print [Txt "[Task 3 - zombie] Demo complete."].

(** [os.getppid()] in the child of the orphan demo, whose parent exits while
    the child runs: the parent as long as it is there, the process that
    adopted the child afterwards.  Which of the two the child's [k]-th call
    finds is the machine's to say. *)
Definition orphan_getppid (k : nat) (parent : pid) : pid :=
  if m_parent_seen m k then parent else m_reaper m.

(** The child of the orphan demo; [time.sleep] refuses a negative length with
    a ValueError that nobody catches. *)
Definition orphan (sleep_child : Z) (me parent : pid) : behaviour :=
  let started :=
    [Txt "[Child] Started. PID="; Num me; Txt " initial PPID="; Num (orphan_getppid 0 parent);
     Txt ". Sleeping "; Num sleep_child; Txt "s..."] in
  if sleep_child <? 0 then crash [started]
  else
    mkBehaviour None
      [started;
       [Txt "[Child] After sleep: PID="; Num me; Txt " now PPID="; Num (orphan_getppid 1 parent);
        Txt " (should be 1 if orphaned)."]]
      (Exited 0).

Definition task3_orphan_demo (sleep_child : Z) : M unit :=
  print [Txt "[Task 3 - orphan] Demo: parent will exit immediately; child will continue."] ;;
  p <- os_fork (orphan sleep_child) ;;
  me <- getpid ;;
  print [Txt "[Parent] PID="; Num me; Txt " -> exiting immediately. Child PID="; Num p] ;;
  halt 0.

(** ** Task 4: inspect /proc/[pid] *)

Definition newline : string := String "010" EmptyString.

(** [Path(f"/proc/{pid}").exists()], and the entry the later reads go to. *)
Definition proc_exists (p : Z) : M (option proc_entry) := fun w =>
  (Ret (m_procfs m p), add_log (EvStat p) w).

(** [with open(status_path) as f: for line in f: ...], the reading ending with
    the error the file system gives, if any. *)
Definition read_status (p : Z) (pe : proc_entry) : M unit :=
  (fun w => (Ret tt, add_log (EvOpenStatus p) w)) ;;
  for_each (fst (pe_status pe)) (fun ln _ =>
      if startswith_any ["Name:"; "State:"; "VmRSS:"; "VmSize:"; "Threads:"] ln
      then print [Txt (strip ln)]
      else ret tt) tt ;;
  match snd (pe_status pe) with
  | Some e => raise e
  | None => ret tt
  end.

Definition readlink_exe (p : Z) (pe : proc_entry) : M string := fun w =>
  match pe_exe pe with
  | inl e => (Raise e, add_log (EvReadlinkExe p) w)
  | inr target => (Ret target, add_log (EvReadlinkExe p) w)
  end.

Definition list_fd (p : Z) (pe : proc_entry) : M (list (string * (exn + string))) := fun w =>
  match pe_fd pe with
  | inl e => (Raise e, add_log (EvListFd p) w)
  | inr fds => (Ret fds, add_log (EvListFd p) w)
  end.

Definition readlink_fd (p : Z) (fd : string * (exn + string)) : M string := fun w =>
  match snd fd with
  | inl e => (Raise e, add_log (EvReadlinkFd p (fst fd)) w)
  | inr target => (Ret target, add_log (EvReadlinkFd p (fst fd)) w)
  end.

(** [except Exception as e] *)
Definition any_exception (h : exn -> M unit) : exn -> option (M unit) := fun e => Some (h e).

Definition task4_inspect (p : Z) : M unit :=
  print [Txt "[Task 4] Inspecting PID "; Num p] ;;
  proc <- proc_exists p ;;
  match proc with
  | None =>
      print [Txt "[Task 4] /proc/"; Num p;
             Txt " does not exist. Process may not be running or you lack permission."]
  | Some pe =>
      print [Txt (newline ++ "-- status --")] ;;
      try_except (read_status p pe)
        (any_exception (fun e => print [Txt "Error reading status:"; Txt " "; Err e])) ;;
      try_except
        (exe <- readlink_exe p pe ;;
         print [Txt (newline ++ "-- exe ->"); Txt " "; Txt exe])
        (any_exception (fun e => print [Txt (newline ++ "-- exe not readable:"); Txt " "; Err e])) ;;
      try_except
        (fds <- list_fd p pe ;;
         print [Txt (newline ++ "-- "); Num (Z.of_nat (List.length fds));
                Txt " open file descriptors:"] ;;
         for_each fds (fun fd _ =>
           try_except
             (target <- readlink_fd p fd ;;
              print [Txt (fst fd); Txt " -> "; Txt target])
             (any_exception (fun e => print [Txt (fst fd); Txt " -> (unreadable) "; Err e]))) tt)
        (any_exception (fun e => print [Txt (newline ++ "-- fd not accessible:"); Txt " "; Err e]))
  end.

(** ** Task 5: prioritization via os.nice() *)

(** The child asks for [niceval] (a refusal is swallowed by
    [except Exception: pass]) and does its busy work. *)
Definition child5 (niceval iterations : Z) (me parent : pid) : behaviour :=
  mkBehaviour (Some niceval)
    [[Txt "[Child] PID="; Num me; Txt " nice="; Num niceval; Txt " starting work."];
     [Txt "[Child] PID="; Num me; Txt " nice="; Num niceval;
      Txt " finished work. result="; Num (busy_work iterations)]]
    (Exited 0).

Definition nicelist : list Z := [0; 5; 10; 15; 19].

Definition task5_priority (n_children iterations : Z) : M unit :=
  print [Txt "[Task 5] Spawning "; Num n_children;
         Txt " CPU-bound children with different nice values."] ;;
  _ <- for_each (slice_to nicelist n_children) (fun niceval children =>
      p <- os_fork (child5 niceval iterations) ;;
      print [Txt "[Parent] spawned child "; Num p; Txt " with target nice="; Num niceval] ;;
      ret (children ++ [p])) [] ;;
  order <- reap_until_echild
    (fun p status => [Txt "[Parent] Child finished: pid="; Num p; Txt " status="; Num status]) [] ;;
  print [Txt "[Task 5] Finish order (PIDs):"; Txt " "; Nums order].

(** ** The dispatcher *)

(** The parsed command line ([argparse]'s namespace). *)
Record args : Type := mkArgs {
  a_task : string;
  a_n : Z;
  a_cmd : string;
  a_pid : option Z;
  a_iterations : Z
}.

(** [not v], for an integer that may be [None]. *)
Definition py_not (v : option Z) : bool :=
  match v with
  | None => true
  | Some z => z =? 0
  end.

Definition ensure_linux : M unit :=
  if negb (m_platform m =? "Linux")%string then
    print [Txt "WARNING: This script requires Linux (os.fork and /proc). Exiting."] ;;
    halt 1
  else ret tt.

Definition main (a : args) : M unit :=
  ensure_linux ;;
  if (a_task a =? "1")%string then task1_create_children (a_n a)
  else if (a_task a =? "2")%string then task2_exec_children (a_n a) (a_cmd a) true
  else if (a_task a =? "3z")%string then task3_zombie_demo
  else if (a_task a =? "3o")%string then task3_orphan_demo 10
  else if (a_task a =? "4")%string then
    (if py_not (a_pid a) then
       print [Txt "Please provide --pid <pid> for task 4"] ;;
       halt 1
     else ret tt) ;;
    match a_pid a with
    | Some p => task4_inspect p
    | None => ret tt
    end
  else if (a_task a =? "5")%string then task5_priority (a_n a) (a_iterations a)
  else print [Txt "Unknown task"].

End Kernel.

(** The status the interpreter ends with: 0 after [main] returns, the code
    given to [sys.exit] or [os._exit], 1 after an exception nobody caught; a
    process stuck in a system call does not end. *)
Definition exit_status {A : Type} (r : res A) : option Z :=
  match r with
  | Ret _ => Some 0
  | Raise _ => Some 1
  | Halt code => Some code
  | Blocked => None
  end.

(** * Facts about the kernel model *)

Lemma take_dead_some (i : nat) (t : list child) :
  (i < List.length (filter terminates t))%nat ->
  exists d rest, take_dead i t = Some (d, rest).
Proof.
  revert i. induction t as [|c t IH]; intros i Hi; simpl in *; [lia|].
  destruct (terminates c); simpl in Hi.
  - destruct i as [|j]; [eauto|].
    destruct (IH j) as (d & rest & ->); [lia|]. simpl. eauto.
  - destruct (IH i Hi) as (d & rest & ->). simpl. eauto.
Qed.

Lemma take_dead_perm (i : nat) (t : list child) (d : child) (rest : list child) :
  take_dead i t = Some (d, rest) ->
  Permutation t (d :: rest) /\ terminates d = true.
Proof.
  revert i d rest. induction t as [|c t IH]; intros i d rest H; simpl in H; [discriminate|].
  destruct (terminates c) eqn:Hc.
  - destruct i as [|j].
    + injection H as <- <-. auto.
    + destruct (take_dead j t) as [[d' r']|] eqn:E; simpl in H; [|discriminate].
      injection H as <- <-. destruct (IH _ _ _ E) as [HP Hd]. split; [|exact Hd].
      rewrite HP. apply perm_swap.
  - destruct (take_dead i t) as [[d' r']|] eqn:E; simpl in H; [|discriminate].
    injection H as <- <-. destruct (IH _ _ _ E) as [HP Hd]. split; [|exact Hd].
    rewrite HP. apply perm_swap.
Qed.

Lemma filter_all_true {A : Type} (f : A -> bool) (l : list A) :
  Forall (fun x => f x = true) l -> filter f l = l.
Proof.
  induction 1 as [|x l Hx _ IH]; simpl; [reflexivity|]. now rewrite Hx, IH.
Qed.

Definition all_terminate (t : list child) : Prop :=
  Forall (fun c => terminates c = true) t.

Definition waited (c : child) : pid * Z := (c_pid c, wstatus (b_fate (c_run c))).

Lemma bind_Ret {A B : Type} (c : M A) (k : A -> M B) (w w' : world) (a : A) :
  c w = (Ret a, w') -> bind c k w = k a w'.
Proof. intros H. unfold bind. now rewrite H. Qed.

Lemma fold_left_snoc {A : Type} (l acc : list A) :
  fold_left (fun acc x => acc ++ [x]) l acc = acc ++ l.
Proof.
  revert acc. induction l as [|x l IH]; intros acc; simpl.
  - now rewrite app_nil_r.
  - rewrite IH, <- app_assoc. reflexivity.
Qed.

Lemma map_combine_snd {A B C : Type} (f : B -> C) (l : list A) (l' : list B) :
  List.length l = List.length l' ->
  map (fun xc => f (snd xc)) (combine l l') = map f l'.
Proof.
  revert l'. induction l as [|x l IH]; intros [|y l'] H; simpl in *; try discriminate; auto.
  f_equal. apply IH. now injection H.
Qed.

Lemma range_length (n : Z) : 0 <= n -> Z.of_nat (List.length (range n)) = n.
Proof. intros H. unfold range. rewrite length_map, length_seq. lia. Qed.

(** The lines the parent prints, by task. *)
Definition task1_header (me : pid) (n : Z) : line :=
  [Txt "[Task 1] Parent PID: "; Num me; Txt ", creating "; Num n; Txt " children"].
Definition task1_spawned (c : child) : line :=
  [Txt "[Parent] spawned child PID="; Num (c_pid c)].
Definition task1_waited (c : child) : line :=
  [Txt "[Parent] wait() returned pid="; Num (fst (waited c)); Txt " status="; Num (snd (waited c))].
Definition task1_done : line := [Txt "[Task 1] All children reaped."].

Definition task2_header (me : pid) (n : Z) (argv : list string) : line :=
  [Txt "[Task 2] Parent PID="; Num me; Txt ", running "; Num n;
   Txt " children each executing: "; Strs argv].
Definition task2_spawned (c : child) : line :=
  [Txt "[Parent] spawned child PID="; Num (c_pid c); Txt " for command"].
Definition task2_waited (c : child) : line :=
  [Txt "[Parent] waited pid="; Num (fst (waited c)); Txt " status="; Num (snd (waited c))].
Definition task2_done : line := [Txt "[Task 2] All children finished."].

Definition task5_header (n : Z) : line :=
  [Txt "[Task 5] Spawning "; Num n; Txt " CPU-bound children with different nice values."].
Definition task5_spawned (xc : Z * child) : line :=
  [Txt "[Parent] spawned child "; Num (c_pid (snd xc)); Txt " with target nice="; Num (fst xc)].
Definition task5_finished (c : child) : line :=
  [Txt "[Parent] Child finished: pid="; Num (fst (waited c)); Txt " status="; Num (snd (waited c))].
Definition task5_order (order : list pid) : line :=
  [Txt "[Task 5] Finish order (PIDs):"; Txt " "; Nums order].

Section KernelFacts.

Variable m : machine.

(** A wait on a table whose children all terminate delivers one of them. *)
Lemma os_wait_delivers (w : world) :
  w_table w <> [] -> all_terminate (w_table w) ->
  exists c rest,
    Permutation (w_table w) (c :: rest) /\
    os_wait m w = (Ret (waited c), add_log (EvWait (Some (waited c))) (set_table rest w)).
Proof.
  intros Hne Hall. unfold os_wait.
  destruct (w_table w) as [|c0 t] eqn:Ht; [congruence|].
  rewrite (filter_all_true _ _ Hall).
  destruct (take_dead_some (Nat.modulo (m_sched m (c0 :: t)) (List.length (c0 :: t))) (c0 :: t))
    as (d & rest & Hd).
  { rewrite (filter_all_true _ _ Hall). apply Nat.mod_upper_bound. simpl. lia. }
  rewrite Hd. exists d, rest. split; [|reflexivity].
  apply (take_dead_perm _ _ _ _ Hd).
Qed.

Lemma os_wait_no_children (w : world) :
  w_table w = [] ->
  os_wait m w = (Raise ChildProcessError, add_log (EvWait None) w).
Proof. intros H. unfold os_wait. now rewrite H. Qed.

(** The loop of tasks 2 and 5, one round at a time. *)
Lemma reap_round (report : pid -> Z -> line) (order : list pid) (w : world) :
  reap_until_echild m report order w =
  match os_wait m w with
  | (Ret (p, status), w1) =>
      reap_until_echild m report (order ++ [p]) (add_out (report p status) w1)
  | (Raise ChildProcessError, w1) => (Ret order, w1)
  | (Raise e, w1) => (Raise e, w1)
  | (Halt code, w1) => (Halt code, w1)
  | (Blocked, w1) => (Blocked, w1)
  end.
Proof.
  rewrite reap_until_echild_equation_1.
  generalize (inspect (os_wait m w)). intros [[r w1] Hw].
  destruct r as [[p status]|e|code|]; [| destruct e | |];
    simpl; rewrite Hw; reflexivity.
Qed.

(** The children a spawning loop over [l] creates, when the PIDs in [used] are
    taken and each child runs [b x] for its item [x]. *)
Fixpoint spawned {A : Type} (b : A -> pid -> pid -> behaviour) (self : pid)
    (l : list A) (used : list pid) : list child :=
  match l with
  | [] => []
  | x :: l' =>
      let p := m_alloc m used in
      mkChild p (b x p self) :: spawned b self l' (used ++ [p])
  end.

Lemma spawned_length {A : Type} (b : A -> pid -> pid -> behaviour) self l used :
  List.length (spawned b self l used) = List.length l.
Proof. revert used. induction l; intros; simpl; auto. Qed.

Lemma spawned_runs {A : Type} (b : A -> pid -> pid -> behaviour) self l used :
  Forall2 (fun x c => c_run c = b x (c_pid c) self) l (spawned b self l used).
Proof. revert used. induction l; intros; simpl; constructor; auto. Qed.

Lemma spawned_terminate {A : Type} (b : A -> pid -> pid -> behaviour) self l used :
  (forall x p q, b_fate (b x p q) <> Forever) ->
  all_terminate (spawned b self l used).
Proof.
  intros Hb. revert used. induction l as [|x l IH]; intros; simpl; [constructor|].
  constructor; [|apply IH].
  unfold terminates. simpl. specialize (Hb x (m_alloc m used) self).
  destruct (b_fate _); congruence.
Qed.

(** The loop body shared by tasks 1, 2 and 5: fork, report, remember. *)
Lemma spawn_loop {A S : Type} (b : A -> pid -> pid -> behaviour) (ln : A -> pid -> line)
    (g : S -> pid -> S) (body : A -> S -> M S) :
  (forall x s w, body x s w = (p <- os_fork m (b x) ;; print (ln x p) ;; ret (g s p)) w) ->
  forall l s w,
    for_each l body s w =
    (Ret (fold_left g (map c_pid (spawned b (w_self w) l (pids_in_use w))) s),
     mkWorld (w_self w)
       (w_table w ++ spawned b (w_self w) l (pids_in_use w))
       (w_out w ++ map (fun xc => ln (fst xc) (c_pid (snd xc)))
                     (combine l (spawned b (w_self w) l (pids_in_use w))))
       (w_log w ++ map EvFork (spawned b (w_self w) l (pids_in_use w)))).
Proof.
  intros Hbody. induction l as [|x l IH]; intros s w.
  - simpl. unfold ret. rewrite !app_nil_r. destruct w; reflexivity.
  - simpl. unfold bind at 1. rewrite Hbody. cbn -[spawned for_each].
    rewrite IH. unfold pids_in_use. cbn -[spawned]. rewrite map_app. cbn -[spawned].
    rewrite <- !app_assoc. reflexivity.
Qed.

(** The counted loop of task 1: one wait for each recorded child. *)
Lemma counted_reap (report : pid -> Z -> line) (children : list pid) :
  forall w,
    all_terminate (w_table w) ->
    (List.length children <= List.length (w_table w))%nat ->
    exists rs rest,
      Permutation (w_table w) (rs ++ rest) /\
      List.length rs = List.length children /\
      for_each children (fun _ _ => ' (p, status) <- os_wait m ;; print (report p status)) tt w =
      (Ret tt,
       mkWorld (w_self w) rest
         (w_out w ++ map (fun c => report (fst (waited c)) (snd (waited c))) rs)
         (w_log w ++ map (fun c => EvWait (Some (waited c))) rs)).
Proof.
  induction children as [|x children IH]; intros w Hall Hlen.
  - exists [], (w_table w). simpl. rewrite !app_nil_r. repeat split; auto.
    unfold ret. destruct w; reflexivity.
  - simpl in Hlen.
    destruct (os_wait_delivers w) as (c & rest & HP & Hw); auto.
    { intros E. rewrite E in Hlen. simpl in Hlen. lia. }
    pose proof (Permutation_length HP) as HL. simpl in HL.
    assert (Hall' : all_terminate rest).
    { unfold all_terminate in *. rewrite HP in Hall. now inversion Hall. }
    destruct (IH (add_out (report (fst (waited c)) (snd (waited c)))
                    (add_log (EvWait (Some (waited c))) (set_table rest w))))
      as (rs & rest' & HP' & Hlen' & Hrun); simpl; auto; [lia|].
    exists (c :: rs), rest'. split; [|split].
    + rewrite HP. simpl. now constructor.
    + simpl. now f_equal.
    + cbn [for_each]. unfold bind at 1. unfold bind at 1. rewrite Hw.
      unfold waited in *. cbn [fst snd print] in *.
      rewrite Hrun. cbn. rewrite <- !app_assoc. reflexivity.
Qed.

(** The loop of tasks 2 and 5 on a table whose children all terminate: every
    child is reaped once, in the order the machine delivers them, and the
    wait that finds no child left ends the loop normally. *)
Lemma reap_all (report : pid -> Z -> line) :
  forall n w order,
    List.length (w_table w) = n ->
    all_terminate (w_table w) ->
    exists rs,
      Permutation (w_table w) rs /\
      reap_until_echild m report order w =
      (Ret (order ++ map c_pid rs),
       mkWorld (w_self w) []
         (w_out w ++ map (fun c => report (fst (waited c)) (snd (waited c))) rs)
         (w_log w ++ map (fun c => EvWait (Some (waited c))) rs ++ [EvWait None])).
Proof.
  induction n as [|n IH]; intros w order Hlen Hall.
  - apply length_zero_iff_nil in Hlen. exists []. rewrite Hlen. split; [constructor|].
    rewrite reap_round, os_wait_no_children by exact Hlen.
    simpl. rewrite !app_nil_r. unfold add_log. now rewrite Hlen.
  - destruct (os_wait_delivers w) as (c & rest & HP & Hw); auto.
    { intros E. rewrite E in Hlen. discriminate. }
    pose proof (Permutation_length HP) as HL. simpl in HL.
    assert (Hall' : all_terminate rest).
    { unfold all_terminate in *. rewrite HP in Hall. now inversion Hall. }
    destruct (IH (add_out (report (fst (waited c)) (snd (waited c)))
                    (add_log (EvWait (Some (waited c))) (set_table rest w)))
                 (order ++ [c_pid c]))
      as (rs & HP' & Hrun); simpl; auto; [lia|].
    exists (c :: rs). split.
    + rewrite HP. now constructor.
    + rewrite reap_round, Hw. unfold waited in *. cbn [fst snd] in *.
      rewrite Hrun. cbn. rewrite <- !app_assoc. reflexivity.
Qed.

Lemma all_terminate_app (t1 t2 : list child) :
  all_terminate t1 -> all_terminate t2 -> all_terminate (t1 ++ t2).
Proof. intros H1 H2. apply Forall_app. now split. Qed.

(** Task 1 from a table whose children all terminate: [n] forks, then as many
    waits as forks, whatever else the table holds. *)
Lemma task1_run (n : Z) (w : world) :
  all_terminate (w_table w) ->
  exists rs rest,
    Permutation (w_table w ++ spawned child1 (w_self w) (range n) (pids_in_use w)) (rs ++ rest) /\
    List.length rs = List.length (range n) /\
    task1_create_children m n w =
      (Ret tt,
       mkWorld (w_self w) rest
         (w_out w ++ [task1_header (w_self w) n]
                  ++ map task1_spawned (spawned child1 (w_self w) (range n) (pids_in_use w))
                  ++ map task1_waited rs ++ [task1_done])
         (w_log w ++ map EvFork (spawned child1 (w_self w) (range n) (pids_in_use w))
                  ++ map (fun c => EvWait (Some (waited c))) rs)).
Proof.
  intros Hall.
  set (cs := spawned child1 (w_self w) (range n) (pids_in_use w)).
  assert (Hcs : List.length cs = List.length (range n)) by apply spawned_length.
  destruct (counted_reap
              (fun p s => [Txt "[Parent] wait() returned pid="; Num p; Txt " status="; Num s])
              (map c_pid cs)
              (mkWorld (w_self w) (w_table w ++ cs)
                 ((w_out w ++ [task1_header (w_self w) n])
                    ++ map (fun xc : Z * child => task1_spawned (snd xc)) (combine (range n) cs))
                 (w_log w ++ map EvFork cs)))
    as (rs & rest & HP & Hlen & Hrun).
  { apply all_terminate_app; [exact Hall|]. apply spawned_terminate. intros; discriminate. }
  { simpl. rewrite length_map, length_app. lia. }
  simpl in HP. rewrite length_map in Hlen.
  exists rs, rest. split; [exact HP|]. split; [congruence|].
  unfold task1_create_children.
  erewrite bind_Ret by reflexivity.
  erewrite bind_Ret by reflexivity.
  erewrite bind_Ret.
  2:{ apply (spawn_loop child1 (fun _ p => [Txt "[Parent] spawned child PID="; Num p])
               (fun acc p => acc ++ [p])). reflexivity. }
  rewrite fold_left_snoc. cbn [app].
  erewrite bind_Ret by exact Hrun.
  rewrite (map_combine_snd task1_spawned) by (symmetry; exact Hcs).
  unfold print, add_out. cbn. rewrite <- !app_assoc. reflexivity.
Qed.

(** Task 5 from a table whose children all terminate: one fork for each hint
    of the sliced list, then waits until the table is empty. *)
Lemma task5_run (n iterations : Z) (w : world) :
  all_terminate (w_table w) ->
  exists rs,
    Permutation
      (w_table w ++ spawned (fun nv => child5 nv iterations) (w_self w)
                      (slice_to nicelist n) (pids_in_use w)) rs /\
    task5_priority m n iterations w =
      (Ret tt,
       mkWorld (w_self w) []
         (w_out w ++ [task5_header n]
            ++ map task5_spawned
                 (combine (slice_to nicelist n)
                    (spawned (fun nv => child5 nv iterations) (w_self w)
                       (slice_to nicelist n) (pids_in_use w)))
            ++ map task5_finished rs ++ [task5_order (map c_pid rs)])
         (w_log w
            ++ map EvFork (spawned (fun nv => child5 nv iterations) (w_self w)
                             (slice_to nicelist n) (pids_in_use w))
            ++ map (fun c => EvWait (Some (waited c))) rs ++ [EvWait None])).
Proof.
  intros Hall.
  set (hints := slice_to nicelist n).
  set (cs := spawned (fun nv => child5 nv iterations) (w_self w) hints (pids_in_use w)).
  destruct (reap_all
              (fun p s => [Txt "[Parent] Child finished: pid="; Num p; Txt " status="; Num s])
              (List.length (w_table w ++ cs))
              (mkWorld (w_self w) (w_table w ++ cs)
                 ((w_out w ++ [task5_header n]) ++ map task5_spawned (combine hints cs))
                 (w_log w ++ map EvFork cs))
              [])
    as (rs & HP & Hrun); [reflexivity | |].
  { apply all_terminate_app; [exact Hall|]. apply spawned_terminate. intros; discriminate. }
  simpl in HP. exists rs. split; [exact HP|].
  unfold task5_priority.
  erewrite bind_Ret by reflexivity.
  erewrite bind_Ret.
  2:{ apply (spawn_loop (fun nv => child5 nv iterations)
               (fun nv p => [Txt "[Parent] spawned child "; Num p;
                             Txt " with target nice="; Num nv])
               (fun acc p => acc ++ [p])). reflexivity. }
  erewrite bind_Ret by exact Hrun.
  unfold print, add_out. cbn. rewrite <- !app_assoc. reflexivity.
Qed.

(** Task 2 likewise, for a command line that parses and children that all end. *)
Lemma task2_run (n : Z) (cmd : string) (argv : list string) (use_exec : bool) (w : world) :
  shlex_split cmd = inr argv ->
  (forall i p q, b_fate (child2 m use_exec argv i p q) <> Forever) ->
  all_terminate (w_table w) ->
  exists rs,
    Permutation
      (w_table w ++ spawned (child2 m use_exec argv) (w_self w) (range n) (pids_in_use w)) rs /\
    task2_exec_children m n cmd use_exec w =
      (Ret tt,
       mkWorld (w_self w) []
         (w_out w ++ [task2_header (w_self w) n argv]
            ++ map task2_spawned
                 (spawned (child2 m use_exec argv) (w_self w) (range n) (pids_in_use w))
            ++ map task2_waited rs ++ [task2_done])
         (w_log w
            ++ map EvFork (spawned (child2 m use_exec argv) (w_self w) (range n) (pids_in_use w))
            ++ map (fun c => EvWait (Some (waited c))) rs ++ [EvWait None])).
Proof.
  intros Hcmd Hfate Hall.
  set (cs := spawned (child2 m use_exec argv) (w_self w) (range n) (pids_in_use w)).
  assert (Hcs : List.length cs = List.length (range n)) by apply spawned_length.
  destruct (reap_all
              (fun p s => [Txt "[Parent] waited pid="; Num p; Txt " status="; Num s])
              (List.length (w_table w ++ cs))
              (mkWorld (w_self w) (w_table w ++ cs)
                 ((w_out w ++ [task2_header (w_self w) n argv])
                    ++ map (fun xc : Z * child => task2_spawned (snd xc)) (combine (range n) cs))
                 (w_log w ++ map EvFork cs))
              [])
    as (rs & HP & Hrun); [reflexivity | |].
  { apply all_terminate_app; [exact Hall|]. now apply spawned_terminate. }
  simpl in HP. exists rs. split; [exact HP|].
  unfold task2_exec_children. rewrite Hcmd.
  erewrite bind_Ret by reflexivity.
  erewrite bind_Ret by reflexivity.
  erewrite bind_Ret by reflexivity.
  erewrite bind_Ret.
  2:{ apply (spawn_loop (child2 m use_exec argv)
               (fun _ p => [Txt "[Parent] spawned child PID="; Num p; Txt " for command"])
               (fun _ _ => tt)). reflexivity. }
  erewrite bind_Ret by exact Hrun.
  rewrite (map_combine_snd task2_spawned) by (symmetry; exact Hcs).
  unfold print, add_out. cbn. rewrite <- !app_assoc. reflexivity.
Qed.

End KernelFacts.

Lemma Forall2_Forall_r {A B : Type} (R : A -> B -> Prop) (P : B -> Prop) (l : list A) (l' : list B) :
  Forall2 R l l' -> (forall x y, R x y -> P y) -> Forall P l'.
Proof. intros H HP. induction H; constructor; eauto. Qed.

Lemma slice_to_nicelist (n : Z) :
  0 <= n -> slice_to nicelist n = firstn (Z.to_nat (Z.min n 5)) nicelist.
Proof.
  intros Hn. unfold slice_to. destruct (0 <=? n) eqn:E; [|lia].
  destruct (Z.le_gt_cases n 5) as [H|H].
  - now rewrite Z.min_l.
  - rewrite Z.min_r by lia. rewrite !firstn_all2; [reflexivity| |]; simpl; lia.
Qed.

Lemma firstn_nicelist_nodup (k : nat) : NoDup (firstn k nicelist).
Proof.
  do 5 (destruct k as [|k];
        [simpl; repeat (apply NoDup_cons; [simpl; intuition lia|]); apply NoDup_nil|]).
  simpl. rewrite firstn_nil.
  repeat (apply NoDup_cons; [simpl; intuition lia|]); apply NoDup_nil.
Qed.

(** * Properties that rest on fresh PIDs

    A fork never returns the PID of the caller or of a child the caller has
    not reaped yet. *)
Section FreshPids.

Variable m : machine.
Hypothesis alloc_fresh : forall used : list pid, ~ In (m_alloc m used) used.

Lemma spawned_fresh {A : Type} (b : A -> pid -> pid -> behaviour) self l used :
  NoDup used -> NoDup (used ++ map c_pid (spawned m b self l used)).
Proof.
  revert used. induction l as [|x l IH]; intros used Hnd; simpl.
  - now rewrite app_nil_r.
  - replace (used ++ m_alloc m used :: map c_pid (spawned m b self l (used ++ [m_alloc m used])))
      with ((used ++ [m_alloc m used]) ++ map c_pid (spawned m b self l (used ++ [m_alloc m used])))
      by (rewrite <- app_assoc; reflexivity).
    apply IH. apply NoDup_app; [assumption | repeat constructor; intros [] | ].
    intros p Hp [<-|[]]. exact (alloc_fresh used Hp).
Qed.

Lemma spawned_nodup {A : Type} (b : A -> pid -> pid -> behaviour) (l : list A) (w : world) :
  w_table w = [] -> NoDup (map c_pid (spawned m b (w_self w) l (pids_in_use w))).
Proof.
  intros Htab. eapply NoDup_app_remove_l, spawned_fresh.
  unfold pids_in_use. rewrite Htab. constructor; [intros [] | constructor].
Qed.

(** C1.  Started by a process without children, task 1 with a count [n >= 0]
    forks exactly [n] children, under [n] distinct PIDs, and then waits exactly
    [n] times: the children it reaps are the children it spawned, each once,
    in the order the machine delivers them.  It returns normally with an empty
    table; with [n = 0] it makes no system call at all. *)
Theorem task1_reaps_exactly_its_children (n : Z) (w : world) :
  0 <= n -> w_table w = [] ->
  exists spawn reaped : list child,
    task1_create_children m n w =
      (Ret tt,
       mkWorld (w_self w) []
         (w_out w ++ [task1_header (w_self w) n] ++ map task1_spawned spawn
                  ++ map task1_waited reaped ++ [task1_done])
         (w_log w ++ map EvFork spawn ++ map (fun c => EvWait (Some (waited c))) reaped)) /\
    Z.of_nat (List.length spawn) = n /\
    Z.of_nat (List.length reaped) = n /\
    NoDup (map c_pid spawn) /\
    Permutation (map c_pid reaped) (map c_pid spawn) /\
    (n = 0 -> spawn = [] /\ reaped = []).
Proof.
  intros Hn Htab.
  destruct (task1_run m n w) as (rs & rest & HP & Hlen & Hrun).
  { rewrite Htab. constructor. }
  set (cs := spawned m child1 (w_self w) (range n) (pids_in_use w)) in *.
  assert (Hcs : List.length cs = List.length (range n)) by apply spawned_length.
  rewrite Htab in HP. simpl in HP.
  assert (rest = []) as ->.
  { apply Permutation_length in HP. rewrite length_app in HP.
    destruct rest; [reflexivity | simpl in HP; lia]. }
  rewrite app_nil_r in HP.
  exists cs, rs. split; [exact Hrun|]. split; [|split; [|split; [|split]]].
  - rewrite Hcs. now apply range_length.
  - rewrite Hlen. now apply range_length.
  - now apply spawned_nodup.
  - symmetry. now apply Permutation_map.
  - intros ->. subst cs. simpl in Hlen. split; [reflexivity|].
    now apply length_zero_iff_nil.
Qed.

Lemma spawned_nice (iterations : Z) (self : pid) (l : list Z) (used : list pid) :
  map (fun c => b_nice (c_run c)) (spawned m (fun nv => child5 nv iterations) self l used)
  = map Some l.
Proof. revert used. induction l as [|x l IH]; intros; simpl; [|rewrite IH]; reflexivity. Qed.

(** C2.  Started by a process without children, task 5 with a count [n >= 0]
    forks [min n 5] children; the i-th asks for the i-th niceness of
    [0, 5, 10, 15, 19], so the hints are distinct and, for [n = 3], are
    0, 5, 10 in that order.  The finish order the parent prints is a
    permutation of the spawned PIDs and repeats none. *)
Theorem task5_spawns_by_niceness (n iterations : Z) (w : world) :
  0 <= n -> w_table w = [] ->
  exists spawn reaped : list child,
    let hints := firstn (Z.to_nat (Z.min n 5)) nicelist in
    task5_priority m n iterations w =
      (Ret tt,
       mkWorld (w_self w) []
         (w_out w ++ [task5_header n] ++ map task5_spawned (combine hints spawn)
                  ++ map task5_finished reaped ++ [task5_order (map c_pid reaped)])
         (w_log w ++ map EvFork spawn
                  ++ map (fun c => EvWait (Some (waited c))) reaped ++ [EvWait None])) /\
    Z.of_nat (List.length spawn) = Z.min n 5 /\
    map (fun c => b_nice (c_run c)) spawn = map Some hints /\
    NoDup hints /\
    (n = 3 -> hints = [0; 5; 10]) /\
    Permutation (map c_pid reaped) (map c_pid spawn) /\
    NoDup (map c_pid reaped).
Proof.
  intros Hn Htab.
  destruct (task5_run m n iterations w) as (rs & HP & Hrun).
  { rewrite Htab. constructor. }
  rewrite slice_to_nicelist in * by exact Hn.
  set (hints := firstn (Z.to_nat (Z.min n 5)) nicelist) in *.
  set (cs := spawned m (fun nv => child5 nv iterations) (w_self w) hints (pids_in_use w)) in *.
  rewrite Htab in HP. simpl in HP.
  assert (Hnd : NoDup (map c_pid cs)) by now apply spawned_nodup.
  exists cs, rs. cbv zeta. fold hints.
  split; [exact Hrun|]. split; [|split; [|split; [|split; [|split]]]].
  - unfold cs. rewrite spawned_length. unfold hints. rewrite length_firstn. simpl. lia.
  - apply spawned_nice.
  - apply firstn_nicelist_nodup.
  - intros ->. reflexivity.
  - symmetry. now apply Permutation_map.
  - eapply Permutation_NoDup; [|exact Hnd]. now apply Permutation_map.
Qed.

End FreshPids.

(** * Properties that hold on every machine *)
Section EveryMachine.

Variable m : machine.

Definition child2_not_found (i : Z) (prog : string) : line :=
  [Txt "[Child "; Num (i + 1); Txt "] exec failed: "; Txt prog; Txt " not found"].

(** C3.  When the command line names a program that [execvp] does not find,
    every child of task 2 ends its output with the diagnostic that names the
    program and exits with code 1, and the parent, started without children,
    still returns normally after reaping exactly its [n] children, each with
    the non-zero status 256. *)
Theorem task2_missing_program (n : Z) (cmd prog : string) (rest : list string)
    (what : string) (w : world) :
  0 <= n -> w_table w = [] ->
  shlex_split cmd = inr (prog :: rest) ->
  m_exec m (prog :: rest) = ExecFails (FileNotFoundError what) ->
  exists spawn reaped : list child,
    task2_exec_children m n cmd true w =
      (Ret tt,
       mkWorld (w_self w) []
         (w_out w ++ [task2_header (w_self w) n (prog :: rest)] ++ map task2_spawned spawn
                  ++ map task2_waited reaped ++ [task2_done])
         (w_log w ++ map EvFork spawn
                  ++ map (fun c => EvWait (Some (waited c))) reaped ++ [EvWait None])) /\
    Z.of_nat (List.length spawn) = n /\
    Forall2 (fun i c => b_fate (c_run c) = Exited 1 /\
                        last (b_out (c_run c)) [] = child2_not_found i prog)
            (range n) spawn /\
    Z.of_nat (List.length reaped) = n /\
    Permutation reaped spawn /\
    Forall (fun c => snd (waited c) = 256) reaped.
Proof.
  intros Hn Htab Hcmd Hexec.
  assert (Hchild : forall i p q,
             child2 m true (prog :: rest) i p q =
             mkBehaviour None
               [[Txt "[Child "; Num (i + 1); Txt "] PID="; Num p; Txt " PPID="; Num q;
                 Txt " ABOUT TO RUN: "; Strs (prog :: rest)];
                child2_not_found i prog]
               (Exited 1)).
  { intros. unfold child2. rewrite Hexec. reflexivity. }
  destruct (task2_run m n cmd (prog :: rest) true w Hcmd) as (rs & HP & Hrun).
  { intros. rewrite Hchild. discriminate. }
  { rewrite Htab. constructor. }
  set (cs := spawned m (child2 m true (prog :: rest)) (w_self w) (range n) (pids_in_use w)) in *.
  rewrite Htab in HP. simpl in HP.
  assert (Hcs : List.length cs = List.length (range n)) by apply spawned_length.
  assert (Hruns : Forall2 (fun i c => b_fate (c_run c) = Exited 1 /\
                             last (b_out (c_run c)) [] = child2_not_found i prog)
                    (range n) cs).
  { eapply Forall2_impl; [|apply spawned_runs]. intros i c ->. rewrite Hchild. auto. }
  exists cs, rs. split; [exact Hrun|]. split; [|split; [|split; [|split]]].
  - rewrite Hcs. now apply range_length.
  - exact Hruns.
  - rewrite <- (Permutation_length HP), Hcs. now apply range_length.
  - now symmetry.
  - eapply Permutation_Forall; [exact HP|].
    eapply Forall2_Forall_r; [exact Hruns|]. intros i c [Hf _]. unfold waited. simpl.
    rewrite Hf. reflexivity.
Qed.

(** A run that ended the way the reap loop of section 4.1 is described: the
    wait that found no child left was the last system call, the table is
    empty, and the task returned normally. *)
Definition ended_by_no_children (r : res unit * world) : Prop :=
  fst r = Ret tt /\
  w_table (snd r) = [] /\
  last (w_log (snd r)) EvBlocked = EvWait None.

Definition last_line (r : res unit * world) : line := last (w_out (snd r)) [].

Lemma child2_ends (use_exec : bool) (argv : list string) (i : Z) (p q : pid) :
  (forall out, m_exec m argv <> ExecRuns out Forever) ->
  b_fate (child2 m use_exec argv i p q) <> Forever.
Proof.
  intros H. unfold child2. destruct argv as [|prog rest]; [discriminate|].
  destruct use_exec, (m_exec m (prog :: rest)) as [e|out f] eqn:E;
    try destruct e; try destruct f; simpl; try discriminate;
    exfalso; eapply H; reflexivity.
Qed.

(** C7, as the code has it.  In tasks 2 and 5 the loop runs until [os.wait()]
    raises ChildProcessError, and that ends it normally: the task goes on to
    print its last line.  Task 1 has a counted loop instead: one wait for each
    child it recorded, none of which can meet that condition, so that after
    its last line the process still has as many children as it had before. *)
Theorem reap_loops_end_normally (w : world) :
  all_terminate (w_table w) ->
  (forall n iterations,
      ended_by_no_children (task5_priority m n iterations w) /\
      exists order, last_line (task5_priority m n iterations w) = task5_order order) /\
  (forall n cmd argv use_exec,
      shlex_split cmd = inr argv ->
      (forall out, m_exec m argv <> ExecRuns out Forever) ->
      ended_by_no_children (task2_exec_children m n cmd use_exec w) /\
      last_line (task2_exec_children m n cmd use_exec w) = task2_done) /\
  (forall n,
      fst (task1_create_children m n w) = Ret tt /\
      last_line (task1_create_children m n w) = task1_done /\
      List.length (w_table (snd (task1_create_children m n w))) = List.length (w_table w) /\
      exists forks waits : list child,
        w_log (snd (task1_create_children m n w)) =
          w_log w ++ map EvFork forks ++ map (fun c => EvWait (Some (waited c))) waits /\
        List.length waits = List.length forks /\
        List.length forks = List.length (range n)).
Proof.
  intros Hall. split; [|split].
  - intros n iterations.
    destruct (task5_run m n iterations w Hall) as (rs & HP & ->).
    unfold ended_by_no_children, last_line. cbn [fst snd w_table w_log w_out].
    rewrite !app_assoc, !last_last. eauto.
  - intros n cmd argv use_exec Hcmd Hexec.
    destruct (task2_run m n cmd argv use_exec w Hcmd) as (rs & HP & ->);
      [intros; now apply child2_ends | exact Hall |].
    unfold ended_by_no_children, last_line. cbn [fst snd w_table w_log w_out].
    rewrite !app_assoc, !last_last. auto.
  - intros n.
    destruct (task1_run m n w Hall) as (rs & rest & HP & Hlen & ->).
    unfold last_line. cbn [fst snd w_table w_log w_out].
    rewrite !app_assoc, last_last.
    pose proof (spawned_length m child1 (w_self w) (range n) (pids_in_use w)) as Hcs.
    split; [reflexivity|]. split; [reflexivity|]. split.
    + apply Permutation_length in HP. rewrite !length_app in HP. lia.
    + exists (spawned m child1 (w_self w) (range n) (pids_in_use w)), rs.
      rewrite <- !app_assoc. split; [reflexivity|]. split; congruence.
Qed.

(** ** Task 4 *)

Definition task4_header (p : Z) : line := [Txt "[Task 4] Inspecting PID "; Num p].
Definition task4_missing (p : Z) : line :=
  [Txt "[Task 4] /proc/"; Num p;
   Txt " does not exist. Process may not be running or you lack permission."].

(** C5.  For a PID without a /proc entry the inspector prints its header and
    the "does not exist" line and returns normally; its only system call is
    the look-up itself, and the table of children is untouched.  Called again
    in the world the first call left, it does exactly the same. *)
Theorem task4_missing_process (p : Z) (w : world) :
  m_procfs m p = None ->
  task4_inspect m p w =
    (Ret tt, mkWorld (w_self w) (w_table w)
               (w_out w ++ [task4_header p; task4_missing p]) (w_log w ++ [EvStat p])) /\
  task4_inspect m p (snd (task4_inspect m p w)) =
    (Ret tt, mkWorld (w_self w) (w_table w)
               ((w_out w ++ [task4_header p; task4_missing p]) ++ [task4_header p; task4_missing p])
               ((w_log w ++ [EvStat p]) ++ [EvStat p])).
Proof.
  intros Hp.
  assert (H : forall w0, task4_inspect m p w0 =
            (Ret tt, mkWorld (w_self w0) (w_table w0)
                       (w_out w0 ++ [task4_header p; task4_missing p]) (w_log w0 ++ [EvStat p]))).
  { intros w0. unfold task4_inspect, bind, proc_exists, print, add_out, add_log. cbn.
    rewrite Hp. cbn. rewrite <- app_assoc. reflexivity. }
  split; [apply H|]. rewrite (H w). cbn [snd]. rewrite H. reflexivity.
Qed.

(** What each of the three reads contributes to the output, from its own
    result alone. *)
Definition status_report (st : list string * option exn) : list line :=
  map (fun ln => [Txt (strip ln)])
      (filter (startswith_any ["Name:"; "State:"; "VmRSS:"; "VmSize:"; "Threads:"]) (fst st))
  ++ match snd st with
     | Some e => [[Txt "Error reading status:"; Txt " "; Err e]]
     | None => []
     end.

Definition exe_report (x : exn + string) : list line :=
  match x with
  | inl e => [[Txt (newline ++ "-- exe not readable:"); Txt " "; Err e]]
  | inr target => [[Txt (newline ++ "-- exe ->"); Txt " "; Txt target]]
  end.

Definition fd_line (fd : string * (exn + string)) : line :=
  match snd fd with
  | inl e => [Txt (fst fd); Txt " -> (unreadable) "; Err e]
  | inr target => [Txt (fst fd); Txt " -> "; Txt target]
  end.

Definition fd_report (x : exn + list (string * (exn + string))) : list line :=
  match x with
  | inl e => [[Txt (newline ++ "-- fd not accessible:"); Txt " "; Err e]]
  | inr fds =>
      [Txt (newline ++ "-- "); Num (Z.of_nat (List.length fds)); Txt " open file descriptors:"]
      :: map fd_line fds
  end.

Definition fd_reads (p : Z) (x : exn + list (string * (exn + string))) : list event :=
  match x with
  | inl _ => []
  | inr fds => map (fun fd => EvReadlinkFd p (fst fd)) fds
  end.

Lemma status_lines_loop (lines : list string) (w : world) :
  for_each lines (fun ln _ =>
      if startswith_any ["Name:"; "State:"; "VmRSS:"; "VmSize:"; "Threads:"] ln
      then print [Txt (strip ln)]
      else ret tt) tt w =
  (Ret tt,
   mkWorld (w_self w) (w_table w)
     (w_out w ++ map (fun ln => [Txt (strip ln)])
                   (filter (startswith_any ["Name:"; "State:"; "VmRSS:"; "VmSize:"; "Threads:"]) lines))
     (w_log w)).
Proof.
  revert w. induction lines as [|ln lines IH]; intros w.
  - cbn. rewrite app_nil_r. destruct w; reflexivity.
  - cbn [for_each filter]. unfold bind at 1.
    destruct (startswith_any _ ln).
    + cbn [print]. rewrite IH. cbn. rewrite <- app_assoc. reflexivity.
    + cbn [ret]. rewrite IH. reflexivity.
Qed.

Lemma fd_loop (p : Z) (fds : list (string * (exn + string))) (w : world) :
  for_each fds (fun fd _ =>
      try_except
        (target <- readlink_fd p fd ;; print [Txt (fst fd); Txt " -> "; Txt target])
        (any_exception (fun e => print [Txt (fst fd); Txt " -> (unreadable) "; Err e]))) tt w =
  (Ret tt,
   mkWorld (w_self w) (w_table w) (w_out w ++ map fd_line fds)
     (w_log w ++ map (fun fd => EvReadlinkFd p (fst fd)) fds)).
Proof.
  revert w. induction fds as [|[name target] fds IH]; intros w.
  - cbn. rewrite !app_nil_r. destruct w; reflexivity.
  - cbn [for_each].
    erewrite bind_Ret with
      (w' := add_out (fd_line (name, target)) (add_log (EvReadlinkFd p name) w)).
    2:{ unfold try_except, bind, readlink_fd, fd_line. cbn [fst snd].
        destruct target as [e|t]; reflexivity. }
    rewrite IH. cbn. rewrite <- !app_assoc. reflexivity.
Qed.

(** C6.  Whatever each of the three reads of an existing entry gives, the
    inspector returns normally, has attempted all three in order (the status
    file, the exe link, the fd listing and then each descriptor of a listing
    that succeeded), and has printed for each read the report of that read
    alone: a failure is reported where it happened and changes nothing else. *)
Theorem task4_reads_are_independent (p : Z) (pe : proc_entry) (w : world) :
  m_procfs m p = Some pe ->
  task4_inspect m p w =
    (Ret tt,
     mkWorld (w_self w) (w_table w)
       (w_out w ++ [task4_header p; [Txt (newline ++ "-- status --")]]
                ++ status_report (pe_status pe)
                ++ exe_report (pe_exe pe)
                ++ fd_report (pe_fd pe))
       (w_log w ++ [EvStat p; EvOpenStatus p; EvReadlinkExe p; EvListFd p]
                ++ fd_reads p (pe_fd pe))).
Proof.
  intros Hp. destruct pe as [[lines err] exe fds]. destruct w as [self table out log].
  unfold task4_inspect.
  erewrite bind_Ret by reflexivity.
  erewrite bind_Ret by (unfold proc_exists; rewrite Hp; reflexivity).
  cbv beta iota. cbn [pe_status pe_exe pe_fd].
  erewrite bind_Ret by reflexivity.
  unfold add_out, add_log; cbn [w_self w_table w_out w_log].
  destruct err as [e1|], exe as [e2|target], fds as [e3|fds].
  all: erewrite (bind_Ret (try_except (read_status p _) _));
    [| unfold try_except, read_status; cbn [pe_status fst snd];
       erewrite bind_Ret by reflexivity;
       erewrite bind_Ret by apply status_lines_loop;
       reflexivity ].
  all: unfold add_out, add_log; cbn [w_self w_table w_out w_log].
  all: erewrite (bind_Ret (try_except (bind (readlink_exe p _) _) _)) by reflexivity.
  all: unfold add_out, add_log; cbn [w_self w_table w_out w_log].
  all: unfold try_except at 1, bind at 1, list_fd; cbn [pe_fd].
  all: unfold add_out, add_log; cbn [w_self w_table w_out w_log].
  all: try (erewrite bind_Ret by reflexivity; rewrite fd_loop).
  all: unfold any_exception, print, add_out, add_log; cbv beta iota;
    cbn [w_self w_table w_out w_log exe_report fd_report fd_reads fst snd].
  all: unfold status_report, task4_header; cbn [fst snd app];
    rewrite <- ?app_assoc; cbn [app]; rewrite ?app_nil_r; reflexivity.
Qed.

(** ** The dispatcher's exit status *)

(** [c] leaves through [sys.exit] or [os._exit] only with a code in [P]. *)
Definition halts_in {A : Type} (P : Z -> Prop) (c : M A) : Prop :=
  forall w code, fst (c w) = Halt code -> P code.

Lemma halts_in_ret {A : Type} (P : Z -> Prop) (a : A) : halts_in P (ret a).
Proof. intros w code H. discriminate. Qed.

Lemma halts_in_raise {A : Type} (P : Z -> Prop) (e : exn) : halts_in P (@raise A e).
Proof. intros w code H. discriminate. Qed.

Lemma halts_in_print (P : Z -> Prop) (ln : line) : halts_in P (print ln).
Proof. intros w code H. discriminate. Qed.

Lemma halts_in_getpid (P : Z -> Prop) : halts_in P getpid.
Proof. intros w code H. discriminate. Qed.

Lemma halts_in_fork (P : Z -> Prop) (b : pid -> pid -> behaviour) : halts_in P (os_fork m b).
Proof. intros w code H. discriminate. Qed.

Lemma halts_in_wait (P : Z -> Prop) : halts_in P (os_wait m).
Proof.
  intros w code. unfold os_wait. destruct (w_table w) as [|c0 t]; [discriminate|].
  destruct (take_dead _ _) as [[c rest]|]; discriminate.
Qed.

Lemma halts_in_bind {A B : Type} (P : Z -> Prop) (c : M A) (k : A -> M B) :
  halts_in P c -> (forall a, halts_in P (k a)) -> halts_in P (bind c k).
Proof.
  intros Hc Hk w code. unfold bind. specialize (Hc w).
  destruct (c w) as [[a|e|code'|] w']; simpl in *; try discriminate.
  - apply Hk.
  - intros H. injection H as <-. now apply Hc.
Qed.

Lemma halts_in_try {A : Type} (P : Z -> Prop) (c : M A) (h : exn -> option (M A)) :
  halts_in P c -> (forall e k, h e = Some k -> halts_in P k) -> halts_in P (try_except c h).
Proof.
  intros Hc Hh w code. unfold try_except. specialize (Hc w).
  destruct (c w) as [[a|e|code'|] w']; simpl in *; try discriminate.
  - destruct (h e) as [k|] eqn:E; [|discriminate]. eapply Hh, E.
  - intros H. injection H as <-. now apply Hc.
Qed.

Lemma halts_in_for_each {A S : Type} (P : Z -> Prop) (l : list A) (body : A -> S -> M S) :
  (forall x s, halts_in P (body x s)) -> forall s, halts_in P (for_each l body s).
Proof.
  intros Hb. induction l as [|x l IH]; intros s; simpl.
  - apply halts_in_ret.
  - apply halts_in_bind; auto.
Qed.

Lemma halts_in_reap (P : Z -> Prop) (report : pid -> Z -> line) :
  forall n w order, List.length (w_table w) = n ->
    forall code, fst (reap_until_echild m report order w) = Halt code -> P code.
Proof.
  induction n as [|n IH]; intros w order Hlen code; rewrite reap_round; unfold os_wait.
  - apply length_zero_iff_nil in Hlen. rewrite Hlen. discriminate.
  - destruct (w_table w) as [|c t] eqn:Ht; [discriminate|].
    destruct (take_dead _ (c :: t)) as [[d rest]|] eqn:Htd; [|discriminate].
    apply IH. simpl. apply take_dead_length in Htd. rewrite Htd in Hlen. now injection Hlen.
Qed.

Ltac no_halt :=
  repeat first
    [ apply halts_in_ret | apply halts_in_raise | apply halts_in_print
    | apply halts_in_getpid | apply halts_in_fork | apply halts_in_wait
    | apply halts_in_bind; [|intros ?] | apply halts_in_for_each; intros ? ?
    | apply halts_in_try; [|unfold any_exception; intros ? ? [= <-]]
    | intros ? ?; eapply halts_in_reap; reflexivity
    | match goal with |- halts_in _ (match ?x with _ => _ end) => destruct x end
    | match goal with |- halts_in _ (if ?x then _ else _) => destruct x end ].

Lemma task1_no_exit (P : Z -> Prop) (n : Z) : halts_in P (task1_create_children m n).
Proof. unfold task1_create_children. no_halt. Qed.

Lemma task2_no_exit (P : Z -> Prop) (n : Z) (cmd : string) (use_exec : bool) :
  halts_in P (task2_exec_children m n cmd use_exec).
Proof. unfold task2_exec_children. no_halt. Qed.

Lemma task3z_no_exit (P : Z -> Prop) : halts_in P (task3_zombie_demo m).
Proof.
  unfold task3_zombie_demo. no_halt.
  intros w code. unfold run_ps. destruct (m_ps m); discriminate.
Qed.

Lemma task3o_exits_0 (sleep_child : Z) : halts_in (fun code => code = 0) (task3_orphan_demo m sleep_child).
Proof.
  unfold task3_orphan_demo. no_halt. intros w code [= <-]. reflexivity.
Qed.

Lemma task4_no_exit (P : Z -> Prop) (p : Z) : halts_in P (task4_inspect m p).
Proof.
  unfold task4_inspect. no_halt.
  all: try (unfold read_status; no_halt).
  all: intros w code; unfold readlink_exe, list_fd, readlink_fd.
  all: try destruct (pe_exe _); try destruct (pe_fd _); try destruct (snd _); discriminate.
Qed.

Lemma task5_no_exit (P : Z -> Prop) (n iterations : Z) :
  halts_in P (task5_priority m n iterations).
Proof. unfold task5_priority. no_halt. Qed.

Definition platform_warning : line :=
  [Txt "WARNING: This script requires Linux (os.fork and /proc). Exiting."].
Definition pid_usage : line := [Txt "Please provide --pid <pid> for task 4"].

(** The two ways [main] gives up before any task runs. *)
Definition startup_failure (a : args) : Prop :=
  m_platform m <> "Linux" \/ (a_task a = "4" /\ py_not (a_pid a) = true).

Lemma ensure_linux_ok (w : world) :
  m_platform m = "Linux" -> ensure_linux m w = (Ret tt, w).
Proof. intros H. unfold ensure_linux. rewrite H. reflexivity. Qed.

Lemma main_on_other_platform (a : args) (w : world) :
  m_platform m <> "Linux" -> main m a w = (Halt 1, add_out platform_warning w).
Proof.
  intros H. unfold main, bind, ensure_linux.
  apply String.eqb_neq in H. rewrite H. reflexivity.
Qed.

Lemma main_without_pid (a : args) (w : world) :
  m_platform m = "Linux" -> a_task a = "4" -> py_not (a_pid a) = true ->
  main m a w = (Halt 1, add_out pid_usage w).
Proof.
  intros HL Ht Hp. unfold main. erewrite bind_Ret by now apply ensure_linux_ok.
  rewrite Ht, Hp. reflexivity.
Qed.

Lemma main_exits_1_only_at_startup (a : args) (w : world) :
  fst (main m a w) = Halt 1 -> startup_failure a.
Proof.
  intros H. unfold startup_failure.
  destruct (String.eqb_spec (m_platform m) "Linux") as [HL|HL]; [|now left].
  right. unfold main in H. erewrite bind_Ret in H by now apply ensure_linux_ok.
  destruct (a_task a =? "1")%string.
  { now apply (task1_no_exit (fun _ => False)) in H. }
  destruct (a_task a =? "2")%string.
  { now apply (task2_no_exit (fun _ => False)) in H. }
  destruct (a_task a =? "3z")%string.
  { now apply (task3z_no_exit (fun _ => False)) in H. }
  destruct (a_task a =? "3o")%string.
  { apply task3o_exits_0 in H. discriminate. }
  destruct (String.eqb_spec (a_task a) "4") as [H4|H4].
  { split; [exact H4|]. destruct (py_not (a_pid a)); [reflexivity|].
    exfalso. erewrite bind_Ret in H by reflexivity.
    destruct (a_pid a) as [p|]; [|discriminate].
    now apply (task4_no_exit (fun _ => False)) in H. }
  destruct (a_task a =? "5")%string.
  { now apply (task5_no_exit (fun _ => False)) in H. }
  discriminate.
Qed.

(** C4, as the code has it.  [main] prints a diagnostic and exits with 1,
    before any system call, when the platform is not Linux and when task 4
    comes with a [--pid] that is missing or 0; no other run leaves through
    [sys.exit(1)].  The interpreter's status is therefore 1 exactly at these
    startup failures and after an exception nobody caught, and 0 exactly when
    the selected task returned or left through [os._exit(0)]. *)
Theorem main_exit_status (a : args) (w : world) :
  (m_platform m <> "Linux" -> main m a w = (Halt 1, add_out platform_warning w)) /\
  (m_platform m = "Linux" -> a_task a = "4" -> py_not (a_pid a) = true ->
   main m a w = (Halt 1, add_out pid_usage w)) /\
  (exit_status (fst (main m a w)) = Some 1 <->
   startup_failure a \/ exists e, fst (main m a w) = Raise e) /\
  (exit_status (fst (main m a w)) = Some 0 <->
   fst (main m a w) = Ret tt \/ fst (main m a w) = Halt 0).
Proof.
  split; [apply main_on_other_platform|]. split; [apply main_without_pid|]. split.
  - split.
    + intros H. destruct (fst (main m a w)) as [[]|e|code|] eqn:E; simpl in H; try discriminate.
      * right. now exists e.
      * left. injection H as ->. apply (main_exits_1_only_at_startup a w). exact E.
    + intros [[H|[H4 Hp]]|[e He]].
      * now rewrite main_on_other_platform.
      * destruct (String.eqb_spec (m_platform m) "Linux") as [HL|HL].
        -- now rewrite main_without_pid.
        -- now rewrite main_on_other_platform.
      * now rewrite He.
  - split.
    + intros H. destruct (fst (main m a w)) as [[]|e|code|]; simpl in H; try discriminate.
      * now left.
      * right. now injection H as ->.
    + intros [->| ->]; reflexivity.
Qed.

(** C10.  On Linux, task 4 with [--pid 0] goes the way of task 4 without
    [--pid]: the usage line, exit status 1, and no look at /proc/0. *)
Theorem main_pid_zero_is_no_pid (n : Z) (cmd : string) (iterations : Z) (w : world) :
  m_platform m = "Linux" ->
  main m (mkArgs "4" n cmd (Some 0) iterations) w = (Halt 1, add_out pid_usage w) /\
  main m (mkArgs "4" n cmd (Some 0) iterations) w = main m (mkArgs "4" n cmd None iterations) w /\
  exit_status (fst (main m (mkArgs "4" n cmd (Some 0) iterations) w)) = Some 1.
Proof.
  intros HL. rewrite !main_without_pid by (auto; reflexivity). auto.
Qed.

End EveryMachine.

(** * The busy work of a task 5 child *)

Lemma land_1_mod_2 (k : Z) : Z.land k 1 = k mod 2.
Proof. change 1 with (Z.ones 1) at 1. now rewrite Z.land_ones. Qed.

Lemma busy_loop_upto (k : nat) :
  fold_left (fun s j => s + Z.land j 1) (map Z.of_nat (seq 0 k)) 0 = Z.of_nat k / 2.
Proof.
  induction k as [|k IH]; [reflexivity|].
  rewrite seq_S, map_app, fold_left_app, IH. cbn [map fold_left Nat.add].
  rewrite land_1_mod_2, Nat2Z.inj_succ. Z.div_mod_to_equations. lia.
Qed.

(** C9.  For [iterations >= 0] the loop [s += k & 1] over [range(iterations)]
    ends with [s = iterations // 2]; that number is what the child prints in
    its last line, whatever niceness it asked for, and it is 1,000,000 for the
    default of 2,000,000 iterations. *)
Theorem busy_work_is_half (iterations : Z) :
  0 <= iterations ->
  busy_work iterations = iterations / 2 /\
  (forall niceval me parent,
      last (b_out (child5 niceval iterations me parent)) [] =
      [Txt "[Child] PID="; Num me; Txt " nice="; Num niceval;
       Txt " finished work. result="; Num (iterations / 2)]) /\
  (iterations = 2000000 -> busy_work iterations = 1000000).
Proof.
  intros Hn.
  assert (H : busy_work iterations = iterations / 2).
  { unfold busy_work, range. rewrite busy_loop_upto, Z2Nat.id by exact Hn. reflexivity. }
  split; [exact H|]. split.
  - intros. unfold child5. cbn [b_out last]. now rewrite H.
  - intros ->. rewrite H. reflexivity.
Qed.

(** * [shlex.split] on shell-style command lines

    A command line in the shell style: words separated by runs of whitespace,
    a word being a run of plain characters, backslash-escaped characters,
    single-quoted segments and double-quoted segments (inside which a
    backslash escapes a double quote or a backslash and is kept before any
    other character). *)

Inductive dq_item : Type :=
| DChar (c : ascii)
| DEsc (c : ascii).

Inductive seg : Type :=
| Plain (c : ascii)
| Escaped (c : ascii)
| Single (s : string)
| Double (items : list dq_item).

Definition word := list seg.

Definition plain_char (c : ascii) : bool :=
  negb (is_whitespace c) && negb (is_quote c) && negb (is_escape c).

Fixpoint no_char (q : ascii) (s : string) : bool :=
  match s with
  | EmptyString => true
  | String c s' => negb (Ascii.eqb c q) && no_char q s'
  end.

Definition dq_item_ok (i : dq_item) : bool :=
  match i with
  | DChar c => negb (Ascii.eqb c dquote) && negb (Ascii.eqb c backslash)
  | DEsc _ => true
  end.

Definition seg_ok (sg : seg) : bool :=
  match sg with
  | Plain c => plain_char c
  | Escaped _ => true
  | Single s => no_char squote s
  | Double items => forallb dq_item_ok items
  end.

Definition cat (l : list string) : string := fold_right String.append EmptyString l.

Definition dq_text (i : dq_item) : string :=
  match i with
  | DChar c => String c EmptyString
  | DEsc c => String backslash (String c EmptyString)
  end.

Definition dq_value (i : dq_item) : string :=
  match i with
  | DChar c => String c EmptyString
  | DEsc c =>
      if Ascii.eqb c backslash || Ascii.eqb c dquote
      then String c EmptyString
      else String backslash (String c EmptyString)
  end.

(** A segment as it is written, and as the token holds it. *)
Definition seg_text (sg : seg) : string :=
  match sg with
  | Plain c => String c EmptyString
  | Escaped c => String backslash (String c EmptyString)
  | Single s => String squote (String.append s (String squote EmptyString))
  | Double items =>
      String dquote (String.append (cat (map dq_text items)) (String dquote EmptyString))
  end.

Definition seg_value (sg : seg) : string :=
  match sg with
  | Plain c => String c EmptyString
  | Escaped c => String c EmptyString
  | Single s => s
  | Double items => cat (map dq_value items)
  end.

Definition seg_quoted (sg : seg) : bool :=
  match sg with
  | Single _ | Double _ => true
  | _ => false
  end.

Definition word_text (w : word) : string := cat (map seg_text w).
Definition word_value (w : word) : string := cat (map seg_value w).
Definition word_ok (w : word) : bool := negb (Nat.eqb (List.length w) 0) && forallb seg_ok w.

Fixpoint all_whitespace (s : string) : bool :=
  match s with
  | EmptyString => true
  | String c s' => is_whitespace c && all_whitespace s'
  end.

Definition separator (s : string) : bool := nonempty s && all_whitespace s.

(** Words, each followed by its separator. *)
Fixpoint words_text (ws : list (word * string)) : string :=
  match ws with
  | [] => EmptyString
  | (w, sep) :: ws' => String.append (word_text w) (String.append sep (words_text ws'))
  end.

Definition opt_text (fin : option word) : string :=
  match fin with
  | Some w => word_text w
  | None => EmptyString
  end.

(** A command line: leading whitespace, words with their separators, and
    possibly a last word that ends the line. *)
Definition command_text (lead : string) (ws : list (word * string)) (fin : option word) : string :=
  String.append lead (String.append (words_text ws) (opt_text fin)).

Definition command_ok (lead : string) (ws : list (word * string)) (fin : option word) : bool :=
  all_whitespace lead
  && forallb (fun x => word_ok (fst x) && separator (snd x)) ws
  && match fin with
     | Some w => word_ok w
     | None => true
     end.

Definition command_words (ws : list (word * string)) (fin : option word) : list string :=
  map (fun x => word_value (fst x)) ws
  ++ match fin with
     | Some w => [word_value w]
     | None => []
     end.

(** How a command line ends when its last word is not finished: inside single
    quotes, inside double quotes (with a backslash as the last character or
    not), or with a backslash outside quotes that nothing follows. *)
Inductive open_end : Type :=
| OpenSingle (s : string)
| OpenDouble (items : list dq_item) (esc : bool)
| OpenEscape.

Definition open_ok (o : open_end) : bool :=
  match o with
  | OpenSingle s => no_char squote s
  | OpenDouble items _ => forallb dq_item_ok items
  | OpenEscape => true
  end.

Definition open_text (o : open_end) : string :=
  match o with
  | OpenSingle s => String squote s
  | OpenDouble items esc =>
      String dquote
        (String.append (cat (map dq_text items))
           (if esc then String backslash EmptyString else EmptyString))
  | OpenEscape => String backslash EmptyString
  end.

(** The error [read_token] raises when the input ends there. *)
Definition open_error (o : open_end) : exn :=
  match o with
  | OpenSingle _ => ValueError "No closing quotation"
  | OpenDouble _ esc =>
      ValueError (if esc then "No escaped character" else "No closing quotation")
  | OpenEscape => ValueError "No escaped character"
  end.

(** An unfinished command line: leading whitespace, words with their
    separators, and a last word (the segments [w], possibly none) that the
    line leaves open. *)
Definition unfinished_text (lead : string) (ws : list (word * string)) (w : word)
    (o : open_end) : string :=
  String.append lead
    (String.append (words_text ws) (String.append (word_text w) (open_text o))).

Definition unfinished_ok (lead : string) (ws : list (word * string)) (w : word)
    (o : open_end) : bool :=
  all_whitespace lead
  && forallb (fun x => word_ok (fst x) && separator (snd x)) ws
  && (forallb seg_ok w && open_ok o).

Lemma append_assoc (a b c : string) :
  String.append (String.append a b) c = String.append a (String.append b c).
Proof. induction a as [|x a IH]; simpl; [|rewrite IH]; reflexivity. Qed.

Lemma append_nil_r (a : string) : String.append a EmptyString = a.
Proof. induction a as [|x a IH]; simpl; [|rewrite IH]; reflexivity. Qed.

Lemma snoc_append (tok : string) (c : ascii) (s : string) :
  String.append (snoc tok c) s = String.append tok (String c s).
Proof. unfold snoc. now rewrite append_assoc. Qed.

Lemma lex_single (s : string) :
  no_char squote s = true ->
  forall tok q rest,
    lex (InQuote squote) tok q (String.append s (String squote rest))
    = lex InWord (String.append tok s) true rest.
Proof.
  induction s as [|c s IH]; intros Hs tok q rest.
  - simpl. now rewrite append_nil_r.
  - simpl in Hs. apply andb_true_iff in Hs as [Hc Hs]. apply negb_true_iff in Hc.
    cbn [String.append lex]. rewrite Hc.
    replace (is_escape c && is_escapedquote squote) with false
      by (symmetry; apply andb_false_r).
    rewrite IH by exact Hs. now rewrite snoc_append.
Qed.

Lemma lex_double (items : list dq_item) :
  forallb dq_item_ok items = true ->
  forall tok q rest,
    lex (InQuote dquote) tok q (String.append (cat (map dq_text items)) (String dquote rest))
    = lex InWord (String.append tok (cat (map dq_value items))) true rest.
Proof.
  induction items as [|i items IH]; intros Hs tok q rest.
  - simpl. now rewrite append_nil_r.
  - simpl in Hs. apply andb_true_iff in Hs as [Hi Hs].
    cbn [map cat fold_right]. fold (cat (map dq_text items)). fold (cat (map dq_value items)).
    destruct i as [c|c].
    + simpl in Hi. apply andb_true_iff in Hi as [H1 H2].
      apply negb_true_iff in H1, H2.
      cbn [dq_text dq_value String.append lex]. rewrite H1. unfold is_escape. rewrite H2.
      cbn [andb]. rewrite IH by exact Hs. now rewrite snoc_append.
    + cbn [dq_text dq_value String.append lex].
      change (Ascii.eqb backslash dquote) with false.
      change (is_escape backslash && is_escapedquote dquote) with true. cbv iota.
      destruct (Ascii.eqb c backslash), (Ascii.eqb c dquote); cbn [negb andb orb];
        rewrite IH by exact Hs; rewrite ?snoc_append; rewrite <- ?append_assoc;
        unfold snoc; rewrite ?append_assoc; reflexivity.
Qed.

Lemma lex_seg_in_word (sg : seg) :
  seg_ok sg = true ->
  forall tok q rest,
    lex InWord tok q (String.append (seg_text sg) rest)
    = lex InWord (String.append tok (seg_value sg)) (q || seg_quoted sg) rest.
Proof.
  intros Hok tok q rest. destruct sg as [c|c|s|items]; simpl in Hok.
  - unfold plain_char in Hok. apply andb_true_iff in Hok as [Hok H3].
    apply andb_true_iff in Hok as [H1 H2]. apply negb_true_iff in H1, H2, H3.
    cbn [seg_text seg_value seg_quoted String.append lex]. rewrite H1, H2, H3.
    now rewrite orb_false_r.
  - cbn [seg_text seg_value seg_quoted String.append lex].
    change (is_whitespace backslash) with false. change (is_quote backslash) with false.
    change (is_escape backslash) with true. cbv iota. now rewrite orb_false_r.
  - cbn [seg_text seg_value seg_quoted String.append lex].
    change (is_whitespace squote) with false. change (is_quote squote) with true. cbv iota.
    rewrite append_assoc. cbn [String.append]. rewrite lex_single by exact Hok.
    now rewrite orb_true_r.
  - cbn [seg_text seg_value seg_quoted String.append lex].
    change (is_whitespace dquote) with false. change (is_quote dquote) with true. cbv iota.
    rewrite append_assoc. cbn [String.append]. rewrite lex_double by exact Hok.
    now rewrite orb_true_r.
Qed.

Lemma lex_seg_from_white (sg : seg) :
  seg_ok sg = true ->
  forall q rest,
    lex InWhite EmptyString q (String.append (seg_text sg) rest)
    = lex InWord (seg_value sg) (q || seg_quoted sg) rest.
Proof.
  intros Hok q rest. destruct sg as [c|c|s|items]; simpl in Hok.
  - unfold plain_char in Hok. apply andb_true_iff in Hok as [Hok H3].
    apply andb_true_iff in Hok as [H1 H2]. apply negb_true_iff in H1, H2, H3.
    cbn [seg_text seg_value seg_quoted String.append lex]. rewrite H1, H2, H3.
    now rewrite orb_false_r.
  - cbn [seg_text seg_value seg_quoted String.append lex].
    change (is_whitespace backslash) with false.
    change (is_escape backslash) with true. cbv iota. now rewrite orb_false_r.
  - cbn [seg_text seg_value seg_quoted String.append lex].
    change (is_whitespace squote) with false. change (is_escape squote) with false.
    change (is_quote squote) with true. cbv iota.
    rewrite append_assoc. cbn [String.append]. rewrite lex_single by exact Hok.
    now rewrite orb_true_r.
  - cbn [seg_text seg_value seg_quoted String.append lex].
    change (is_whitespace dquote) with false. change (is_escape dquote) with false.
    change (is_quote dquote) with true. cbv iota.
    rewrite append_assoc. cbn [String.append]. rewrite lex_double by exact Hok.
    now rewrite orb_true_r.
Qed.

Lemma lex_word_in_word (w : word) :
  forallb seg_ok w = true ->
  forall tok q rest,
    lex InWord tok q (String.append (word_text w) rest)
    = lex InWord (String.append tok (word_value w)) (q || existsb seg_quoted w) rest.
Proof.
  induction w as [|sg w IH]; intros Hok tok q rest.
  - simpl. now rewrite append_nil_r, orb_false_r.
  - simpl in Hok. apply andb_true_iff in Hok as [Hsg Hw].
    unfold word_text, word_value. cbn [map cat fold_right existsb].
    fold (cat (map seg_text w)). fold (cat (map seg_value w)).
    fold (word_text w). fold (word_value w).
    rewrite append_assoc, lex_seg_in_word by exact Hsg.
    rewrite IH by exact Hw. now rewrite append_assoc, orb_assoc.
Qed.

Lemma lex_word_from_white (w : word) :
  word_ok w = true ->
  forall rest,
    lex InWhite EmptyString false (String.append (word_text w) rest)
    = lex InWord (word_value w) (existsb seg_quoted w) rest.
Proof.
  unfold word_ok. intros Hok rest. apply andb_true_iff in Hok as [Hne Hok].
  destruct w as [|sg w]; [discriminate|].
  simpl in Hok. apply andb_true_iff in Hok as [Hsg Hw].
  unfold word_text, word_value. cbn [map cat fold_right existsb].
  fold (cat (map seg_text w)). fold (cat (map seg_value w)).
  fold (word_text w). fold (word_value w).
  rewrite append_assoc, lex_seg_from_white by exact Hsg.
  now rewrite lex_word_in_word by exact Hw.
Qed.

(** A word leaves a token behind: it has a character or a pair of quotes. *)
Lemma word_leaves_token (w : word) :
  word_ok w = true -> existsb seg_quoted w || nonempty (word_value w) = true.
Proof.
  unfold word_ok. intros Hok. apply andb_true_iff in Hok as [Hne _].
  destruct w as [|[c|c|s|items] w]; [discriminate| | | |]; simpl; auto.
  all: apply orb_true_r.
Qed.

Lemma lex_skip_whitespace (s : string) :
  all_whitespace s = true ->
  forall rest,
    lex InWhite EmptyString false (String.append s rest) = lex InWhite EmptyString false rest.
Proof.
  induction s as [|c s IH]; intros Hs rest; [reflexivity|].
  simpl in Hs. apply andb_true_iff in Hs as [Hc Hs].
  cbn [String.append lex]. rewrite Hc. cbn [orb nonempty]. now apply IH.
Qed.

Lemma lex_separator (tok : string) (q : bool) (sep : string) :
  q || nonempty tok = true -> separator sep = true ->
  forall rest,
    lex InWord tok q (String.append sep rest)
    = cons_token tok (lex InWhite EmptyString false rest).
Proof.
  unfold separator. intros Htok Hsep rest. apply andb_true_iff in Hsep as [Hne Hws].
  destruct sep as [|c sep]; [discriminate|].
  simpl in Hws. apply andb_true_iff in Hws as [Hc Hws].
  cbn [String.append lex]. rewrite Hc, Htok. now rewrite lex_skip_whitespace.
Qed.

Lemma lex_words (ws : list (word * string)) :
  forallb (fun x => word_ok (fst x) && separator (snd x)) ws = true ->
  forall rest,
    lex InWhite EmptyString false (String.append (words_text ws) rest)
    = fold_right cons_token (lex InWhite EmptyString false rest)
        (map (fun x => word_value (fst x)) ws).
Proof.
  induction ws as [|[w sep] ws IH]; intros Hok rest; [reflexivity|].
  simpl in Hok. apply andb_true_iff in Hok as [Hw Hws].
  apply andb_true_iff in Hw as [Hw Hsep].
  cbn [words_text map fold_right fst]. rewrite !append_assoc.
  rewrite lex_word_from_white by exact Hw.
  rewrite lex_separator; [| now apply word_leaves_token | exact Hsep].
  now rewrite IH.
Qed.

Lemma fold_cons_token (toks l : list string) :
  fold_right cons_token (inr l) toks = inr (toks ++ l).
Proof. induction toks as [|t toks IH]; simpl; [|rewrite IH]; reflexivity. Qed.

Lemma fold_cons_token_error (toks : list string) (e : exn) :
  fold_right cons_token (inl e) toks = inl e.
Proof. induction toks as [|t toks IH]; simpl; [|rewrite IH]; reflexivity. Qed.

Lemma lex_unclosed (s : string) :
  no_char squote s = true ->
  forall tok q, lex (InQuote squote) tok q s = inl (ValueError "No closing quotation").
Proof.
  induction s as [|c s IH]; intros Hs tok q; [reflexivity|].
  simpl in Hs. apply andb_true_iff in Hs as [Hc Hs]. apply negb_true_iff in Hc.
  cbn [lex]. rewrite Hc.
  replace (is_escape c && is_escapedquote squote) with false
    by (symmetry; apply andb_false_r).
  now apply IH.
Qed.

Lemma lex_unclosed_double (items : list dq_item) (esc : bool) :
  forallb dq_item_ok items = true ->
  forall tok q,
    lex (InQuote dquote) tok q
      (String.append (cat (map dq_text items))
         (if esc then String backslash EmptyString else EmptyString))
    = inl (open_error (OpenDouble items esc)).
Proof.
  induction items as [|i items IH]; intros Hs tok q.
  - destruct esc; reflexivity.
  - simpl in Hs. apply andb_true_iff in Hs as [Hi Hs].
    cbn [map cat fold_right]. fold (cat (map dq_text items)).
    rewrite append_assoc. destruct i as [c|c].
    + simpl in Hi. apply andb_true_iff in Hi as [H1 H2].
      apply negb_true_iff in H1, H2.
      cbn [dq_text String.append lex]. rewrite H1. unfold is_escape. rewrite H2.
      cbn [andb]. now rewrite IH.
    + cbn [dq_text String.append lex].
      change (Ascii.eqb backslash dquote) with false.
      change (is_escape backslash && is_escapedquote dquote) with true. cbv iota.
      destruct (negb (Ascii.eqb c backslash) && negb (Ascii.eqb c dquote)); now rewrite IH.
Qed.

Lemma lex_open_in_word (o : open_end) :
  open_ok o = true ->
  forall tok q, lex InWord tok q (open_text o) = inl (open_error o).
Proof.
  intros Hok tok q. destruct o as [s|items esc|]; simpl in Hok.
  - cbn [open_text lex].
    change (is_whitespace squote) with false. change (is_quote squote) with true. cbv iota.
    now apply lex_unclosed.
  - cbn [open_text lex].
    change (is_whitespace dquote) with false. change (is_quote dquote) with true. cbv iota.
    now apply lex_unclosed_double.
  - reflexivity.
Qed.

Lemma lex_open_from_white (o : open_end) :
  open_ok o = true ->
  forall q, lex InWhite EmptyString q (open_text o) = inl (open_error o).
Proof.
  intros Hok q. destruct o as [s|items esc|]; simpl in Hok.
  - cbn [open_text lex].
    change (is_whitespace squote) with false. change (is_escape squote) with false.
    change (is_quote squote) with true. cbv iota.
    now apply lex_unclosed.
  - cbn [open_text lex].
    change (is_whitespace dquote) with false. change (is_escape dquote) with false.
    change (is_quote dquote) with true. cbv iota.
    now apply lex_unclosed_double.
  - reflexivity.
Qed.

Lemma lex_open_word (w : word) (o : open_end) :
  forallb seg_ok w = true -> open_ok o = true ->
  lex InWhite EmptyString false (String.append (word_text w) (open_text o))
  = inl (open_error o).
Proof.
  intros Hw Ho. destruct w as [|sg w].
  - now apply lex_open_from_white.
  - simpl in Hw. apply andb_true_iff in Hw as [Hsg Hw].
    unfold word_text. cbn [map cat fold_right]. fold (cat (map seg_text w)).
    fold (word_text w).
    rewrite append_assoc, lex_seg_from_white by exact Hsg.
    rewrite lex_word_in_word by exact Hw. now apply lex_open_in_word.
Qed.

(** ** Every command line is of one of the two kinds *)

(** The end of a command line: a last word or none, or a word left open. *)
Inductive ending : Type :=
| Finished (fin : option word)
| Unfinished (w : word) (o : open_end).

Definition ending_text (e : ending) : string :=
  match e with
  | Finished fin => opt_text fin
  | Unfinished w o => String.append (word_text w) (open_text o)
  end.

Definition ending_ok (e : ending) : bool :=
  match e with
  | Finished (Some w) => word_ok w
  | Finished None => true
  | Unfinished w o => forallb seg_ok w && open_ok o
  end.

Definition parses (s : string) : Prop :=
  exists lead ws e,
    (all_whitespace lead
     && forallb (fun x => word_ok (fst x) && separator (snd x)) ws
     && ending_ok e = true) /\
    s = String.append lead (String.append (words_text ws) (ending_text e)).

Lemma parses_white (c : ascii) (s : string) :
  is_whitespace c = true -> parses s -> parses (String c s).
Proof.
  intros Hc (lead & ws & e & Hok & ->).
  exists (String c lead), ws, e. split; [|reflexivity].
  cbn [all_whitespace]. now rewrite Hc.
Qed.

Lemma parses_seg (sg : seg) (s : string) :
  seg_ok sg = true -> parses s -> parses (String.append (seg_text sg) s).
Proof.
  intros Hsg (lead & ws & e & Hok & ->).
  apply andb_true_iff in Hok as [Hok He]. apply andb_true_iff in Hok as [Hlead Hws].
  destruct lead as [|c lead].
  - destruct ws as [|[w sep] ws].
    + destruct e as [[w|]|w o].
      * exists EmptyString, [], (Finished (Some (sg :: w))). split; [|reflexivity].
        simpl in *. unfold word_ok in *. simpl. rewrite Hsg.
        apply andb_true_iff in He as [_ He]. exact He.
      * exists EmptyString, [], (Finished (Some [sg])). split; [|reflexivity].
        simpl. unfold word_ok. simpl. now rewrite Hsg.
      * exists EmptyString, [], (Unfinished (sg :: w) o). split.
        -- simpl in *. now rewrite Hsg.
        -- cbn [String.append words_text ending_text]. unfold word_text.
           cbn [map cat fold_right]. now rewrite append_assoc.
    + exists EmptyString, ((sg :: w, sep) :: ws), e. split.
      * simpl in *. unfold word_ok in *. simpl. rewrite Hsg.
        apply andb_true_iff in Hws as [Hw Hws]. apply andb_true_iff in Hw as [Hw Hsep].
        apply andb_true_iff in Hw as [_ Hw]. now rewrite Hw, Hsep, Hws, He.
      * cbn [String.append words_text]. unfold word_text.
        cbn [map cat fold_right]. now rewrite !append_assoc.
  - exists EmptyString, (([sg], String c lead) :: ws), e. split.
    + cbn [all_whitespace forallb fst snd andb]. rewrite Hws, He.
      unfold word_ok, separator.
      cbn [List.length Nat.eqb negb forallb nonempty andb]. now rewrite Hsg, Hlead.
    + cbn [String.append words_text]. unfold word_text.
      cbn [map cat fold_right]. rewrite append_nil_r, append_assoc.
      cbn [String.append]. now rewrite append_assoc.
Qed.

Lemma parses_open (o : open_end) : open_ok o = true -> parses (open_text o).
Proof.
  intros Ho. exists EmptyString, [], (Unfinished [] o). split; [|reflexivity].
  simpl. exact Ho.
Qed.

(** What follows a single quote: no other single quote, or a text that the
    next single quote closes. *)
Lemma single_quote_found (s : string) :
  no_char squote s = true \/
  exists a rest,
    no_char squote a = true /\ s = String.append a (String squote rest) /\
    (String.length rest < String.length s)%nat.
Proof.
  induction s as [|c s IH]; [now left|].
  destruct (Ascii.eqb c squote) eqn:Hc.
  - right. apply Ascii.eqb_eq in Hc as ->. exists EmptyString, s. simpl. auto.
  - destruct IH as [IH | (a & rest & Ha & -> & Hlen)].
    + left. simpl. now rewrite Hc, IH.
    + right. exists (String c a), rest. simpl. rewrite Hc, Ha. repeat split; auto.
Qed.

(** What follows a double quote: characters and escapes up to the end of the
    line, or up to the double quote that closes them. *)
Lemma double_quote_found (n : nat) :
  forall s, (String.length s <= n)%nat ->
    (exists items esc,
        forallb dq_item_ok items = true /\
        s = String.append (cat (map dq_text items))
              (if esc : bool then String backslash EmptyString else EmptyString)) \/
    (exists items rest,
        forallb dq_item_ok items = true /\
        s = String.append (cat (map dq_text items)) (String dquote rest) /\
        (String.length rest < String.length s)%nat).
Proof.
  assert (Hcons : forall i s,
    dq_item_ok i = true ->
    ((exists items esc,
        forallb dq_item_ok items = true /\
        s = String.append (cat (map dq_text items))
              (if esc : bool then String backslash EmptyString else EmptyString)) \/
     (exists items rest,
        forallb dq_item_ok items = true /\
        s = String.append (cat (map dq_text items)) (String dquote rest) /\
        (String.length rest < String.length s)%nat)) ->
    (exists items esc,
        forallb dq_item_ok items = true /\
        String.append (dq_text i) s
        = String.append (cat (map dq_text items))
              (if esc : bool then String backslash EmptyString else EmptyString)) \/
    (exists items rest,
        forallb dq_item_ok items = true /\
        String.append (dq_text i) s
        = String.append (cat (map dq_text items)) (String dquote rest) /\
        (String.length rest < String.length (String.append (dq_text i) s))%nat)).
  { intros i s Hi [(items & esc & Hok & ->) | (items & rest & Hok & -> & Hlen)].
    - left. exists (i :: items), esc. split; [simpl; now rewrite Hi, Hok|].
      cbn [map cat fold_right]. now rewrite append_assoc.
    - right. exists (i :: items), rest. split; [simpl; now rewrite Hi, Hok|].
      split; [cbn [map cat fold_right]; now rewrite append_assoc|].
      destruct i; simpl in *; lia. }
  induction n as [|n IH]; intros s Hs.
  - destruct s; [|simpl in Hs; lia]. left. now exists [], false.
  - destruct s as [|c s]; [left; now exists [], false|].
    destruct (Ascii.eqb c dquote) eqn:Hq.
    { right. apply Ascii.eqb_eq in Hq as ->. exists [], s. simpl. auto. }
    destruct (Ascii.eqb c backslash) eqn:Hb.
    + apply Ascii.eqb_eq in Hb as ->. destruct s as [|d s].
      * left. now exists [], true.
      * apply (Hcons (DEsc d) s eq_refl). apply IH. simpl in Hs. lia.
    + apply (Hcons (DChar c) s); [simpl; now rewrite Hq, Hb|].
      apply IH. simpl in Hs. lia.
Qed.

Lemma every_line_parses (n : nat) :
  forall s, (String.length s <= n)%nat -> parses s.
Proof.
  induction n as [|n IH]; intros s Hs.
  - destruct s; [|simpl in Hs; lia].
    exists EmptyString, [], (Finished None). now split.
  - destruct s as [|c s].
    { exists EmptyString, [], (Finished None). now split. }
    simpl in Hs.
    destruct (is_whitespace c) eqn:Hw.
    { apply parses_white; [exact Hw|]. apply IH. lia. }
    destruct (Ascii.eqb c backslash) eqn:Hb.
    { apply Ascii.eqb_eq in Hb as ->. destruct s as [|d s].
      - now apply (parses_open OpenEscape).
      - apply (parses_seg (Escaped d) s eq_refl). apply IH. simpl in Hs. lia. }
    destruct (Ascii.eqb c squote) eqn:H1.
    { apply Ascii.eqb_eq in H1 as ->.
      destruct (single_quote_found s) as [Hno | (a & rest & Ha & -> & Hlen)].
      - now apply (parses_open (OpenSingle s)).
      - replace (String squote (String.append a (String squote rest)))
          with (String.append (seg_text (Single a)) rest)
          by (cbn [seg_text String.append]; now rewrite append_assoc).
        apply parses_seg; [exact Ha|]. apply IH. lia. }
    destruct (Ascii.eqb c dquote) eqn:H2.
    { apply Ascii.eqb_eq in H2 as ->.
      destruct (double_quote_found (String.length s) s (le_n _))
        as [(items & esc & Hok & ->) | (items & rest & Hok & -> & Hlen)].
      - now apply (parses_open (OpenDouble items esc)).
      - replace (String dquote (String.append (cat (map dq_text items)) (String dquote rest)))
          with (String.append (seg_text (Double items)) rest)
          by (cbn [seg_text String.append]; now rewrite append_assoc).
        apply parses_seg; [exact Hok|]. apply IH. lia. }
    apply (parses_seg (Plain c) s); [|apply IH; lia].
    unfold seg_ok, plain_char, is_quote, is_escape. now rewrite Hw, H1, H2, Hb.
Qed.

(** C8, as [shlex.split] has it.  Every command line is either in the shell
    style or unfinished.  On a shell-style command line the tokens are the
    words, one token for each word and in their order: the whitespace between
    words is dropped, and what stands between quotes (whitespace included)
    stays in its token, the quotes removed; so "ls -l" gives the tokens "ls"
    and "-l".  An unfinished command line, one that ends with a single or a
    double quote opened at the start of a word or inside it and never closed,
    or with a backslash that nothing follows, is refused with the ValueError
    of [shlex]; and a command line that [shlex.split] refuses ends task 2 with
    that error before anything is printed or forked. *)
Theorem shlex_split_words :
  (forall lead ws fin,
      command_ok lead ws fin = true ->
      shlex_split (command_text lead ws fin) = inr (command_words ws fin)) /\
  (forall lead ws w o,
      unfinished_ok lead ws w o = true ->
      shlex_split (unfinished_text lead ws w o) = inl (open_error o)) /\
  (forall cmd,
      (exists lead ws fin,
          command_ok lead ws fin = true /\ cmd = command_text lead ws fin) \/
      (exists lead ws w o,
          unfinished_ok lead ws w o = true /\ cmd = unfinished_text lead ws w o)) /\
  (forall m n cmd use_exec w e,
      shlex_split cmd = inl e ->
      task2_exec_children m n cmd use_exec w = (Raise e, w)) /\
  shlex_split "ls -l" = inr ["ls"; "-l"] /\
  shlex_split "echo 'a  b' c" = inr ["echo"; "a  b"; "c"].
Proof.
  split; [|split; [|split; [|split; [|split; reflexivity]]]].
  - intros lead ws fin Hok. unfold command_ok in Hok.
    apply andb_true_iff in Hok as [Hok Hfin]. apply andb_true_iff in Hok as [Hlead Hws].
    unfold shlex_split, command_text, command_words.
    rewrite lex_skip_whitespace by exact Hlead.
    rewrite lex_words by exact Hws.
    destruct fin as [w|]; cbn [opt_text].
    + rewrite <- (append_nil_r (word_text w)), lex_word_from_white by exact Hfin.
      cbn [lex]. unfold last_token. rewrite word_leaves_token by exact Hfin.
      apply fold_cons_token.
    + cbn [lex last_token orb nonempty]. apply fold_cons_token.
  - intros lead ws w o Hok. unfold unfinished_ok in Hok.
    apply andb_true_iff in Hok as [Hok Hend]. apply andb_true_iff in Hok as [Hlead Hws].
    apply andb_true_iff in Hend as [Hw Ho].
    unfold shlex_split, unfinished_text.
    rewrite lex_skip_whitespace by exact Hlead.
    rewrite lex_words by exact Hws.
    rewrite lex_open_word by assumption. apply fold_cons_token_error.
  - intros cmd.
    destruct (every_line_parses (String.length cmd) cmd (le_n _))
      as (lead & ws & [fin|w o] & Hok & ->).
    + left. exists lead, ws, fin. split; [|reflexivity].
      unfold command_ok. destruct fin; exact Hok.
    + right. exists lead, ws, w, o. split; [exact Hok | reflexivity].
  - intros m n cmd use_exec w e Hcmd.
    unfold task2_exec_children, bind, raise. now rewrite Hcmd.
Qed.

(** * A machine to run the program on

    PIDs are handed out upwards, the youngest terminated child is delivered
    first, [ls] is the only program installed, and /proc has an entry for
    PID 1 whose exe link and one of whose descriptors cannot be read. *)

Definition next_pid (used : list pid) : pid := 1 + fold_right Z.max 0 used.

Definition demo_exec (argv : list string) : exec_outcome :=
  match argv with
  | "ls" :: _ => ExecRuns [[Txt "total 0"]] (Exited 0)
  | _ => ExecFails (FileNotFoundError "No such file or directory")
  end.

Definition init_entry : proc_entry :=
  mkProcEntry
    ([String.append "Name:   systemd" newline; String.append "Umask:  0000" newline;
      String.append "State:  S (sleeping)" newline],
     None)
    (inl (OSError "Permission denied"))
    (inr [("0", inr "/dev/null"); ("1", inl (OSError "Permission denied"))]).

Definition demo_procfs (p : Z) : option proc_entry :=
  if p =? 1 then Some init_entry else None.

Definition demo : machine :=
  mkMachine "Linux" next_pid (fun dead => Nat.pred (List.length dead)) demo_exec
    (inr ["F S   UID   PID  PPID CMD"; "1 Z  1000   101   100 python3 <defunct>"])
    1 (fun _ => false) demo_procfs.

(** A freshly started interpreter, and one that was handed a child (already
    terminated) by the program that exec'ed it. *)
Definition boot : world := mkWorld 100 [] [] [].
Definition boot_with_child : world :=
  mkWorld 100 [mkChild 50 (mkBehaviour None [] (Exited 0))] [] [].

Lemma next_pid_above (used : list pid) (p : pid) : In p used -> p < next_pid used.
Proof.
  unfold next_pid. induction used as [|x used IH]; intros H; [destruct H|].
  cbn [fold_right]. destruct H as [->|H]; [lia|]. apply IH in H. lia.
Qed.

Lemma next_pid_fresh (used : list pid) : ~ In (m_alloc demo used) used.
Proof. intros H. apply next_pid_above in H. cbn [m_alloc demo] in H. lia. Qed.

(** C1 on the demo machine: two children. *)
Lemma task1_reaps_exactly_its_children_demo :
  exists spawn reaped : list child,
    fst (task1_create_children demo 2 boot) = Ret tt /\
    w_log (snd (task1_create_children demo 2 boot))
      = map EvFork spawn ++ map (fun c => EvWait (Some (waited c))) reaped /\
    Z.of_nat (List.length spawn) = 2 /\
    NoDup (map c_pid spawn) /\
    Permutation (map c_pid reaped) (map c_pid spawn).
Proof.
  destruct (task1_reaps_exactly_its_children demo next_pid_fresh 2 boot)
    as (spawn & reaped & Hrun & Hs & Hr & Hnd & HP & _); [lia | reflexivity |].
  exists spawn, reaped. rewrite Hrun. auto.
Defined.

(** C2 on the demo machine: three children, hints 0, 5, 10. *)
Lemma task5_spawns_by_niceness_demo :
  exists spawn reaped : list child,
    fst (task5_priority demo 3 10 boot) = Ret tt /\
    map (fun c => b_nice (c_run c)) spawn = [Some 0; Some 5; Some 10] /\
    Permutation (map c_pid reaped) (map c_pid spawn) /\
    NoDup (map c_pid reaped).
Proof.
  destruct (task5_spawns_by_niceness demo next_pid_fresh 3 10 boot)
    as (spawn & reaped & Hrun & Hs & Hnice & _ & _ & HP & Hnd); [lia | reflexivity |].
  exists spawn, reaped. rewrite Hrun. auto.
Defined.

(** C3 on the demo machine: [nosuch] is not installed. *)
Lemma task2_missing_program_demo :
  exists spawn reaped : list child,
    fst (task2_exec_children demo 2 "nosuch -x" true boot) = Ret tt /\
    Forall2 (fun i c => b_fate (c_run c) = Exited 1 /\
                        last (b_out (c_run c)) [] = child2_not_found i "nosuch")
            (range 2) spawn /\
    Permutation reaped spawn /\
    Forall (fun c => snd (waited c) = 256) reaped.
Proof.
  destruct (task2_missing_program demo 2 "nosuch -x" "nosuch" ["-x"]
              "No such file or directory" boot)
    as (spawn & reaped & Hrun & _ & Hchildren & _ & HP & Hst);
    [lia | reflexivity | reflexivity | reflexivity |].
  exists spawn, reaped. rewrite Hrun. auto.
Defined.

(** C5 on the demo machine: there is no /proc/4242. *)
Lemma task4_missing_process_demo :
  task4_inspect demo 4242 boot =
    (Ret tt, mkWorld 100 [] [task4_header 4242; task4_missing 4242] [EvStat 4242]).
Proof. exact (proj1 (task4_missing_process demo 4242 boot eq_refl)). Defined.

(** C6 on the demo machine: the exe link of PID 1 and its descriptor 1 are
    unreadable, the status file and descriptor 0 are read all the same. *)
Lemma task4_reads_are_independent_demo :
  task4_inspect demo 1 boot =
    (Ret tt,
     mkWorld 100 []
       [task4_header 1; [Txt (newline ++ "-- status --")];
        [Txt "Name:   systemd"]; [Txt "State:  S (sleeping)"];
        [Txt (newline ++ "-- exe not readable:"); Txt " "; Err (OSError "Permission denied")];
        [Txt (newline ++ "-- "); Num 2; Txt " open file descriptors:"];
        [Txt "0"; Txt " -> "; Txt "/dev/null"];
        [Txt "1"; Txt " -> (unreadable) "; Err (OSError "Permission denied")]]
       [EvStat 1; EvOpenStatus 1; EvReadlinkExe 1; EvListFd 1;
        EvReadlinkFd 1 "0"; EvReadlinkFd 1 "1"]).
Proof. exact (task4_reads_are_independent demo 1 init_entry boot eq_refl). Defined.

(** C7 on the demo machine. *)
Lemma reap_loops_end_normally_demo :
  ended_by_no_children (task5_priority demo 3 10 boot) /\
  ended_by_no_children (task2_exec_children demo 2 "ls -l" true boot) /\
  fst (task1_create_children demo 2 boot_with_child) = Ret tt /\
  List.length (w_table (snd (task1_create_children demo 2 boot_with_child))) = 1%nat.
Proof.
  destruct (reap_loops_end_normally demo boot (Forall_nil _)) as (H5 & H2 & _).
  destruct (reap_loops_end_normally demo boot_with_child) as (_ & _ & H1).
  { repeat constructor. }
  split; [apply H5 | split].
  - apply (H2 2 "ls -l" ["ls"; "-l"] true); [reflexivity | intros out; discriminate].
  - destruct (H1 2) as (Hret & _ & Hlen & _). split; [exact Hret | exact Hlen].
Defined.

(** C9 for ten iterations. *)
Lemma busy_work_is_half_demo : busy_work 10 = 5.
Proof. exact (proj1 (busy_work_is_half 10 ltac:(lia))). Defined.

(** C10 on the demo machine. *)
Lemma main_pid_zero_is_no_pid_demo :
  main demo (mkArgs "4" 3 "ls -l" (Some 0) 2000000) boot = (Halt 1, add_out pid_usage boot).
Proof. exact (proj1 (main_pid_zero_is_no_pid demo 3 "ls -l" 2000000 boot eq_refl)). Defined.

(** * Where the specification and the code part *)

(** C4 as the specification states it: status 1 in exactly two cases. *)
Definition exit_1_as_specified (m : machine) (a : args) : Prop :=
  m_platform m <> "Linux" \/ (a_task a = "4" /\ a_pid a = None).

(** On Linux, task 4 with [--pid 0] and task 2 with an open quote in [--cmd]
    both end with status 1, and neither is one of the two cases. *)
Lemma exit_1_outside_the_two_cases :
  (exit_status (fst (main demo (mkArgs "4" 3 "ls -l" (Some 0) 2000000) boot)) = Some 1 /\
   ~ exit_1_as_specified demo (mkArgs "4" 3 "ls -l" (Some 0) 2000000)) /\
  (exit_status (fst (main demo (mkArgs "2" 3 "ls 'x" None 2000000) boot)) = Some 1 /\
   ~ exit_1_as_specified demo (mkArgs "2" 3 "ls 'x" None 2000000)).
Proof.
  split; (split; [reflexivity|]); intros [H|[H1 H2]];
    first [now apply H | discriminate].
Qed.

(** C7 as the specification states it fails for task 1: with two children the
    last system call of the run is a wait that delivered a child, not one
    that found none; and started with a child of its own, task 1 prints its
    last line while a child is still there to reap. *)
Lemma task1_loop_is_counted :
  ~ ended_by_no_children (task1_create_children demo 2 boot) /\
  last_line (task1_create_children demo 1 boot_with_child) = task1_done /\
  w_table (snd (task1_create_children demo 1 boot_with_child))
    = [mkChild 50 (mkBehaviour None [] (Exited 0))].
Proof.
  split; [|split; reflexivity].
  intros (_ & _ & H). vm_compute in H. discriminate.
Qed.

(** C8 as the specification states it, for every command string: the command
    line [echo 'a b] opens a quote and never closes it; [shlex.split] gives no
    tokens for it, and task 2 started with it ends with the ValueError,
    nothing printed and no child forked. *)
Lemma unclosed_quote_is_not_split :
  (forall toks, shlex_split "echo 'a b" <> inr toks) /\
  shlex_split "echo 'a b" = inl (ValueError "No closing quotation") /\
  task2_exec_children demo 3 "echo 'a b" true boot
  = (Raise (ValueError "No closing quotation"), boot).
Proof. split; [discriminate | split; reflexivity]. Qed.

(** * Further properties of the tasks

    What the code does at the edges of its inputs and with children it was
    not meant for. *)

Lemma range_nonpositive (n : Z) : n <= 0 -> range n = [].
Proof. intros H. unfold range. destruct n; [reflexivity | lia | reflexivity]. Qed.

Lemma slice_to_negative (n : Z) :
  n < 0 -> slice_to nicelist n = firstn (Z.to_nat (5 + n)) nicelist.
Proof. intros H. unfold slice_to. destruct (0 <=? n) eqn:E; [lia | reflexivity]. Qed.

Section Edges.

Variable m : machine.

(** X1.  A count that is zero or negative makes task 1 a no-op: [range(n)] is
    empty, so nothing is forked and nothing is waited for, whatever children
    the process has, and the two framing lines are all it prints. *)
Theorem task1_nonpositive_count (n : Z) (w : world) :
  n <= 0 ->
  task1_create_children m n w =
    (Ret tt, mkWorld (w_self w) (w_table w)
               (w_out w ++ [task1_header (w_self w) n; task1_done]) (w_log w)).
Proof.
  intros Hn. unfold task1_create_children. rewrite (range_nonpositive n Hn).
  destruct w as [self table out log]. cbn. unfold print, add_out. cbn.
  rewrite <- app_assoc. reflexivity.
Qed.

(** X2.  A negative count does not make task 5 a no-op: [nicelist[:n]] counts
    from the end, so for [n < 0] the task forks [max 0 (5 + n)] children (four
    for [n = -1]) with the first hints of the list, and none only from
    [n <= -5] on. *)
Theorem task5_negative_count (n iterations : Z) (w : world) :
  n < 0 -> w_table w = [] ->
  exists spawn reaped : list child,
    task5_priority m n iterations w =
      (Ret tt,
       mkWorld (w_self w) []
         (w_out w ++ [task5_header n]
            ++ map task5_spawned (combine (firstn (Z.to_nat (5 + n)) nicelist) spawn)
            ++ map task5_finished reaped ++ [task5_order (map c_pid reaped)])
         (w_log w ++ map EvFork spawn
            ++ map (fun c => EvWait (Some (waited c))) reaped ++ [EvWait None])) /\
    Z.of_nat (List.length spawn) = Z.max 0 (5 + n) /\
    map (fun c => b_nice (c_run c)) spawn = map Some (firstn (Z.to_nat (5 + n)) nicelist) /\
    Permutation reaped spawn.
Proof.
  intros Hn Htab.
  destruct (task5_run m n iterations w) as (rs & HP & Hrun).
  { rewrite Htab. constructor. }
  rewrite slice_to_negative in * by exact Hn.
  rewrite Htab in HP. simpl in HP.
  eexists; exists rs. split; [exact Hrun|]. split; [|split].
  - rewrite spawned_length, length_firstn.
    change (List.length nicelist) with 5%nat. lia.
  - apply spawned_nice.
  - now symmetry.
Qed.

(** X3.  The loop of task 5 reaps whatever the process has: started with
    children of its own (all of which terminate), it waits for them too, and
    the finish order it prints is a permutation of their PIDs together with
    those of the children it forked. *)
Theorem task5_reaps_prior_children (n iterations : Z) (w : world) :
  all_terminate (w_table w) ->
  exists (spawn reaped : list child) (out : list line),
    task5_priority m n iterations w =
      (Ret tt,
       mkWorld (w_self w) [] (w_out w ++ out ++ [task5_order (map c_pid reaped)])
         (w_log w ++ map EvFork spawn
            ++ map (fun c => EvWait (Some (waited c))) reaped ++ [EvWait None])) /\
    Permutation (map c_pid reaped) (map c_pid (w_table w) ++ map c_pid spawn) /\
    List.length reaped = (List.length (w_table w) + List.length (slice_to nicelist n))%nat.
Proof.
  intros Hall.
  destruct (task5_run m n iterations w Hall) as (rs & HP & Hrun).
  exists (spawned m (fun nv => child5 nv iterations) (w_self w)
            (slice_to nicelist n) (pids_in_use w)), rs,
         ([task5_header n]
            ++ map task5_spawned
                 (combine (slice_to nicelist n)
                    (spawned m (fun nv => child5 nv iterations) (w_self w)
                       (slice_to nicelist n) (pids_in_use w)))
            ++ map task5_finished rs).
  split; [|split].
  - rewrite Hrun. rewrite <- !app_assoc. reflexivity.
  - rewrite <- map_app. symmetry. now apply Permutation_map.
  - rewrite <- (Permutation_length HP), length_app, spawned_length. reflexivity.
Qed.

End Edges.

(** X4.  For every integer, negative ones included, the busy loop ends with
    [max(iterations, 0) // 2]: a negative iteration count is an empty range
    and the child prints [result=0]. *)
Theorem busy_work_any_count (iterations : Z) :
  busy_work iterations = Z.max iterations 0 / 2 /\
  (iterations <= 0 -> busy_work iterations = 0).
Proof.
  assert (H : busy_work iterations = Z.max iterations 0 / 2).
  { unfold busy_work, range. rewrite busy_loop_upto.
    destruct (Z.le_gt_cases 0 iterations).
    - rewrite Z2Nat.id, Z.max_l by lia. reflexivity.
    - rewrite Z.max_r by lia. destruct iterations; try lia; reflexivity. }
  split; [exact H|]. intros Hn. rewrite H, Z.max_r by lia. reflexivity.
Qed.

(** ** Children that never end *)

Lemma take_dead_none (i : nat) (t : list child) :
  filter terminates t = [] -> take_dead i t = None.
Proof.
  revert i. induction t as [|c t IH]; intros i H; simpl in *; [reflexivity|].
  destruct (terminates c); [discriminate|]. now rewrite IH.
Qed.

Definition never_ends (c : child) : Prop := terminates c = false.

Section Blocking.

Variable m : machine.

(** With a child in the table that never terminates, the loop of tasks 2 and
    5 reaps what terminates and then stays in [os.wait()] for ever. *)
Lemma reap_blocks (report : pid -> Z -> line) :
  forall n w order,
    List.length (w_table w) = n ->
    Exists never_ends (w_table w) ->
    exists w',
      reap_until_echild m report order w = (Blocked, w') /\
      last (w_log w') EvPs = EvBlocked.
Proof.
  induction n as [|n IH]; intros w order Hlen Hex.
  - apply length_zero_iff_nil in Hlen. rewrite Hlen in Hex. inversion Hex.
  - rewrite reap_round. unfold os_wait.
    destruct (w_table w) as [|c t] eqn:Ht; [inversion Hex|].
    destruct (take_dead _ (c :: t)) as [[d rest]|] eqn:Htd.
    + destruct (take_dead_perm _ _ _ _ Htd) as [HP Hd].
      apply take_dead_length in Htd.
      apply IH.
      * simpl. rewrite Htd in Hlen. now injection Hlen.
      * simpl. apply Exists_exists in Hex as (x & Hx & Hnx).
        apply (Permutation_in _ HP) in Hx. destruct Hx as [<-|Hx].
        -- unfold never_ends in Hnx. congruence.
        -- apply Exists_exists. eauto.
    + eexists. split; [reflexivity|]. simpl. apply last_last.
Qed.

(** X5.  Task 2 with at least one child and a command that never exits (in
    either mode) does not come back: after its forks the parent stays blocked
    in a wait, and its completion line is never reached. *)
Theorem task2_never_ending_program (n : Z) (cmd prog : string) (rest : list string)
    (out : list line) (use_exec : bool) (w : world) :
  1 <= n ->
  shlex_split cmd = inr (prog :: rest) ->
  m_exec m (prog :: rest) = ExecRuns out Forever ->
  exists w',
    task2_exec_children m n cmd use_exec w = (Blocked, w') /\
    last (w_log w') EvPs = EvBlocked.
Proof.
  intros Hn Hcmd Hexec.
  unfold task2_exec_children. rewrite Hcmd.
  erewrite bind_Ret by reflexivity.
  erewrite bind_Ret by reflexivity.
  erewrite bind_Ret by reflexivity.
  erewrite bind_Ret.
  2:{ apply (spawn_loop m (child2 m use_exec (prog :: rest))
               (fun _ p => [Txt "[Parent] spawned child PID="; Num p; Txt " for command"])
               (fun _ _ => tt)). reflexivity. }
  match goal with
  | |- context [bind (reap_until_echild m ?r ?o) ?k ?w1] =>
      destruct (reap_blocks r (List.length (w_table w1)) w1 o eq_refl) as (w' & Hrun & Hlast)
  end.
  - cbn [w_table]. apply Exists_app. right.
    unfold range. destruct (Z.to_nat n) as [|k] eqn:Hk; [lia|].
    cbn [seq map spawned]. apply Exists_cons_hd.
    unfold never_ends, terminates, child2. cbn [c_run].
    rewrite Hexec. destruct use_exec; reflexivity.
  - exists w'. unfold bind at 1. rewrite Hrun. auto.
Qed.

(** X6.  Task 5 started by a process that has a child which never terminates
    does not come back either: it forks its children, reaps what terminates,
    and stays blocked before it can print the finish order. *)
Theorem task5_blocks_on_prior_child (n iterations : Z) (w : world) :
  Exists never_ends (w_table w) ->
  exists w',
    task5_priority m n iterations w = (Blocked, w') /\
    last (w_log w') EvPs = EvBlocked.
Proof.
  intros Hex. unfold task5_priority.
  erewrite bind_Ret by reflexivity.
  erewrite bind_Ret.
  2:{ apply (spawn_loop m (fun nv => child5 nv iterations)
               (fun nv p => [Txt "[Parent] spawned child "; Num p;
                             Txt " with target nice="; Num nv])
               (fun acc p => acc ++ [p])). reflexivity. }
  match goal with
  | |- context [bind (reap_until_echild m ?r ?o) ?k ?w1] =>
      destruct (reap_blocks r (List.length (w_table w1)) w1 o eq_refl) as (w' & Hrun & Hlast)
  end.
  - cbn [w_table add_out]. apply Exists_app. now left.
  - exists w'. unfold bind at 1. rewrite Hrun. auto.
Qed.

End Blocking.

(** ** What [shlex.split] can answer *)

Lemma cons_token_error (tok : string) (r : exn + list string) (e : exn) :
  cons_token tok r = inl e -> r = inl e.
Proof. destruct r; simpl; congruence. Qed.

Definition shlex_error (e : exn) : Prop :=
  e = ValueError "No closing quotation" \/ e = ValueError "No escaped character".

Lemma lex_errors (s : string) :
  forall st tok q e, lex st tok q s = inl e -> shlex_error e.
Proof.
  unfold shlex_error.
  induction s as [|c s IH]; intros st tok q e H.
  - destruct st; simpl in H; try discriminate; injection H as <-; auto.
  - destruct st as [| |q0|[q0|]]; cbn [lex] in H;
      repeat match type of H with
             | (if ?b then _ else _) = _ => destruct b
             | cons_token _ _ = _ => apply cons_token_error in H
             end; eapply IH; exact H.
Qed.

(** The states in which a token is under way: whatever follows, the lexer
    answers with an error or with at least that token. *)
Definition token_started (st : lex_state) (tok : string) (q : bool) : Prop :=
  match st with
  | InWhite => False
  | InWord => q || nonempty tok = true
  | _ => True
  end.

Lemma nonempty_snoc (tok : string) (c : ascii) : nonempty (snoc tok c) = true.
Proof. destruct tok; reflexivity. Qed.

Lemma lex_started_not_nil (s : string) :
  forall st tok q, token_started st tok q -> lex st tok q s <> inr [].
Proof.
  induction s as [|c s IH]; intros st tok q Hst.
  - destruct st; simpl in *; try discriminate; [contradiction|].
    unfold last_token. rewrite Hst. discriminate.
  - destruct st as [| |q0|[q0|]]; cbn [lex]; simpl in Hst; [contradiction| | | |].
    + destruct (is_whitespace c).
      * rewrite Hst. destruct (lex InWhite EmptyString false s); discriminate.
      * destruct (is_quote c); [now apply IH|].
        destruct (is_escape c); apply IH; simpl; auto.
        rewrite nonempty_snoc. apply orb_true_r.
    + destruct (Ascii.eqb c q0); [now apply IH|].
      destruct (is_escape c && is_escapedquote q0); now apply IH.
    + destruct (negb (Ascii.eqb c backslash) && negb (Ascii.eqb c q0)); now apply IH.
    + apply IH. simpl. rewrite nonempty_snoc. apply orb_true_r.
Qed.

(** X7.  [shlex.split] gives no token exactly for a blank command line, and
    refuses a command line only with one of its two ValueErrors. *)
Theorem shlex_split_answers (cmd : string) :
  (shlex_split cmd = inr [] <-> all_whitespace cmd = true) /\
  (forall e, shlex_split cmd = inl e -> shlex_error e).
Proof.
  split; [|intros e; apply lex_errors].
  unfold shlex_split. split.
  - induction cmd as [|c cmd IH]; [reflexivity|]. cbn [lex all_whitespace orb nonempty].
    destruct (is_whitespace c); [exact IH|]. intros H. exfalso. revert H.
    destruct (is_escape c); [now apply lex_started_not_nil|].
    destruct (is_quote c); now apply lex_started_not_nil.
  - intros H. rewrite <- (append_nil_r cmd). now rewrite lex_skip_whitespace.
Qed.

(** ** Task 2 with other command lines *)

Definition child2_hello (argv : list string) (i : Z) (me parent : pid) : line :=
  [Txt "[Child "; Num (i + 1); Txt "] PID="; Num me; Txt " PPID="; Num parent;
   Txt " ABOUT TO RUN: "; Strs argv].

Section Task2.

Variable m : machine.

(** Task 2 started without children, when its children all end the same way. *)
Lemma task2_uniform (n : Z) (cmd : string) (argv : list string) (use_exec : bool)
    (f : fate) (w : world) :
  shlex_split cmd = inr argv ->
  (forall i p q, b_fate (child2 m use_exec argv i p q) = f) ->
  f <> Forever ->
  w_table w = [] ->
  exists spawn reaped : list child,
    task2_exec_children m n cmd use_exec w =
      (Ret tt,
       mkWorld (w_self w) []
         (w_out w ++ [task2_header (w_self w) n argv] ++ map task2_spawned spawn
                  ++ map task2_waited reaped ++ [task2_done])
         (w_log w ++ map EvFork spawn
                  ++ map (fun c => EvWait (Some (waited c))) reaped ++ [EvWait None])) /\
    Forall2 (fun i c => c_run c = child2 m use_exec argv i (c_pid c) (w_self w))
            (range n) spawn /\
    Permutation reaped spawn /\
    Forall (fun c => snd (waited c) = wstatus f) reaped.
Proof.
  intros Hcmd Hfate Hf Htab.
  destruct (task2_run m n cmd argv use_exec w Hcmd) as (rs & HP & Hrun).
  { intros. now rewrite Hfate. }
  { rewrite Htab. constructor. }
  rewrite Htab in HP. simpl in HP.
  eexists; exists rs. split; [exact Hrun|]. split; [apply spawned_runs|].
  split; [now symmetry|].
  eapply Permutation_Forall; [exact HP|].
  eapply Forall2_Forall_r; [apply spawned_runs|].
  intros i c Hc. unfold waited. cbn [snd]. now rewrite Hc, Hfate.
Qed.

(** X8.  With a blank command line [argv] is empty: every child prints its
    first line, dies of the IndexError of [argv[0]] with exit code 1 before
    it runs anything, in either mode, and the parent reaps them all with
    status 256 and finishes normally. *)
Theorem task2_blank_command (n : Z) (cmd : string) (use_exec : bool) (w : world) :
  all_whitespace cmd = true -> w_table w = [] ->
  exists spawn reaped : list child,
    task2_exec_children m n cmd use_exec w =
      (Ret tt,
       mkWorld (w_self w) []
         (w_out w ++ [task2_header (w_self w) n []] ++ map task2_spawned spawn
                  ++ map task2_waited reaped ++ [task2_done])
         (w_log w ++ map EvFork spawn
                  ++ map (fun c => EvWait (Some (waited c))) reaped ++ [EvWait None])) /\
    Forall2 (fun i c => c_run c =
                        mkBehaviour None [child2_hello [] i (c_pid c) (w_self w)] (Exited 1))
            (range n) spawn /\
    Permutation reaped spawn /\
    Forall (fun c => snd (waited c) = 256) reaped.
Proof.
  intros Hcmd Htab.
  assert (Hsplit : shlex_split cmd = inr []).
  { unfold shlex_split. rewrite <- (append_nil_r cmd). now rewrite lex_skip_whitespace. }
  destruct (task2_uniform n cmd [] use_exec (Exited 1) w Hsplit)
    as (spawn & reaped & Hrun & Hruns & HP & Hst); auto; [discriminate|].
  exists spawn, reaped. auto.
Qed.

(** X9.  In exec mode a program that is found and ends takes the child over:
    the child's output is its first line followed by the program's, it ends
    the way the program does, and the parent reads that very status from
    each of its waits. *)
Theorem task2_exec_hands_over (n : Z) (cmd prog : string) (rest : list string)
    (out : list line) (f : fate) (w : world) :
  shlex_split cmd = inr (prog :: rest) ->
  m_exec m (prog :: rest) = ExecRuns out f ->
  f <> Forever ->
  w_table w = [] ->
  exists spawn reaped : list child,
    fst (task2_exec_children m n cmd true w) = Ret tt /\
    w_log (snd (task2_exec_children m n cmd true w)) =
      w_log w ++ map EvFork spawn
              ++ map (fun c => EvWait (Some (waited c))) reaped ++ [EvWait None] /\
    Forall2 (fun i c => c_run c =
                        mkBehaviour None
                          (child2_hello (prog :: rest) i (c_pid c) (w_self w) :: out) f)
            (range n) spawn /\
    Permutation reaped spawn /\
    Forall (fun c => snd (waited c) = wstatus f) reaped.
Proof.
  intros Hcmd Hexec Hf Htab.
  assert (Hchild : forall i p q,
             child2 m true (prog :: rest) i p q =
             mkBehaviour None (child2_hello (prog :: rest) i p q :: out) f).
  { intros. unfold child2. rewrite Hexec. reflexivity. }
  destruct (task2_uniform n cmd (prog :: rest) true f w Hcmd)
    as (spawn & reaped & Hrun & Hruns & HP & Hst); auto.
  { intros. now rewrite Hchild. }
  exists spawn, reaped. rewrite Hrun. cbn [fst snd w_log].
  repeat split; auto.
  eapply Forall2_impl; [|exact Hruns]. intros i c ->. apply Hchild.
Qed.


(** X11.  A command line that [shlex.split] refuses stops task 2 at its first
    statement: the ValueError leaves the function before anything is printed
    or forked, and [main] ends with status 1. *)
Theorem task2_refused_command (a : args) (e : exn) (w : world) :
  m_platform m = "Linux" -> a_task a = "2" -> shlex_split (a_cmd a) = inl e ->
  shlex_error e /\
  main m a w = (Raise e, w) /\
  exit_status (fst (main m a w)) = Some 1.
Proof.
  intros HL Ht Hcmd.
  assert (Hmain : main m a w = (Raise e, w)).
  { unfold main. erewrite bind_Ret by now apply ensure_linux_ok.
    rewrite Ht. cbn [String.eqb Ascii.eqb Bool.eqb].
    unfold task2_exec_children, bind, raise. now rewrite Hcmd. }
  split; [eapply lex_errors; exact Hcmd|]. split; [exact Hmain|]. now rewrite Hmain.
Qed.

End Task2.

(** ** Task 3 *)

Definition zombie_child (me : pid) : child :=
  mkChild me
    (mkBehaviour None
       [[Txt "[Child] PID="; Num me;
         Txt " exiting immediately (becomes zombie until parent waits)."]]
       (Exited 0)).

Definition zombie_intro (me : pid) : list line :=
  [[Txt "[Task 3 - zombie] Starting demo"];
   [Txt "[Parent] PID="; Num me;
    Txt " NOT calling wait() yet. Checking for defunct processes..."]].

(** What the parent prints about the listing [ps] gave. *)
Definition zombie_scan (out : list string) : list line :=
  match filter (fun L => contains "defunct" L || contains "<defunct>" L) out with
  | [] =>
      [[Txt "[Parent] No defunct lines found (timing may vary). Full ps output (filtered for 'defunct'):"]]
  | L :: ls => [Txt "[Parent] Found defunct lines (zombie):"] :: map (fun L => [Txt L]) (L :: ls)
  end.

Lemma print_each (ls : list string) (w : world) :
  for_each ls (fun L _ => print [Txt L]) tt w =
  (Ret tt, mkWorld (w_self w) (w_table w) (w_out w ++ map (fun L => [Txt L]) ls) (w_log w)).
Proof.
  revert w. induction ls as [|L ls IH]; intros [self table out log].
  - cbn. now rewrite app_nil_r.
  - cbn [for_each]. erewrite bind_Ret by reflexivity. rewrite IH.
    unfold add_out. cbn. now rewrite <- app_assoc.
Qed.

Ltac norm_world :=
  unfold add_out, add_log, set_table; cbn [w_self w_table w_out w_log app].

Section Task3.

Variable m : machine.

Lemma os_wait_single (c : child) (w : world) :
  w_table w = [c] -> terminates c = true ->
  os_wait m w = (Ret (waited c), add_log (EvWait (Some (waited c))) (set_table [] w)).
Proof.
  intros Ht Hc. unfold os_wait. rewrite Ht. cbn [filter]. rewrite Hc.
  cbn [List.length]. rewrite Nat.mod_1_r. cbn [take_dead]. rewrite Hc. reflexivity.
Qed.

(** X12.  The zombie demo, started without children and with a [ps] that
    runs: one fork, then the listing while the child is still unreaped, then
    the one wait, which delivers that child with status 0 and leaves the
    table empty.  What is printed in between are the lines of the listing
    that mention "defunct", or the note that there were none. *)
Theorem task3_zombie_run (out : list string) (w : world) :
  w_table w = [] -> m_ps m = inr out ->
  task3_zombie_demo m w =
    (Ret tt,
     mkWorld (w_self w) []
       (w_out w ++ zombie_intro (w_self w) ++ zombie_scan out
          ++ [[Txt "[Parent] After wait(): "; Tup (m_alloc m (pids_in_use w)) 0];
              [Txt "[Task 3 - zombie] Demo complete."]])
       (w_log w ++ [EvFork (zombie_child (m_alloc m (pids_in_use w))); EvPs;
                    EvWait (Some (m_alloc m (pids_in_use w), 0))])).
Proof.
  intros Htab Hps. destruct w as [self table out0 log]. cbn [w_table] in Htab. subst table.
  unfold task3_zombie_demo.
  do 4 (erewrite bind_Ret by reflexivity; norm_world).
  erewrite bind_Ret by (unfold run_ps; rewrite Hps; reflexivity). norm_world.
  erewrite (bind_Ret _ _ _ (mkWorld self _ (_ ++ zombie_scan out) _)).
  2:{ unfold zombie_scan. destruct (filter _ out) as [|L ls]; [reflexivity|].
      erewrite bind_Ret by reflexivity. norm_world. rewrite print_each.
      cbn [w_self w_table w_out w_log]. rewrite <- app_assoc. reflexivity. }
  erewrite bind_Ret by (apply os_wait_single; reflexivity). norm_world.
  unfold waited. cbn [c_pid c_run b_fate wstatus Z.land Z.shiftl fst snd].
  erewrite bind_Ret by reflexivity. unfold print. norm_world.
  unfold zombie_intro, zombie_child, pids_in_use. cbn [w_self w_table map].
  rewrite <- !app_assoc. reflexivity.
Qed.

(** X13.  When [ps] cannot be run, the exception leaves the zombie demo
    between the fork and the wait: the child is never reaped by this process,
    the closing lines are not printed, and [main] ends with status 1. *)
Theorem task3_zombie_without_ps (a : args) (e : exn) (w : world) :
  m_platform m = "Linux" -> a_task a = "3z" -> m_ps m = inl e ->
  main m a w =
    (Raise e,
     mkWorld (w_self w)
       (w_table w ++ [zombie_child (m_alloc m (pids_in_use w))])
       (w_out w ++ zombie_intro (w_self w))
       (w_log w ++ [EvFork (zombie_child (m_alloc m (pids_in_use w))); EvPs])) /\
  exit_status (fst (main m a w)) = Some 1.
Proof.
  intros HL Ht Hps.
  assert (Hmain : main m a w =
    (Raise e,
     mkWorld (w_self w)
       (w_table w ++ [zombie_child (m_alloc m (pids_in_use w))])
       (w_out w ++ zombie_intro (w_self w))
       (w_log w ++ [EvFork (zombie_child (m_alloc m (pids_in_use w))); EvPs]))).
  { unfold main. erewrite bind_Ret by now apply ensure_linux_ok.
    rewrite Ht. cbn [String.eqb Ascii.eqb Bool.eqb].
    destruct w as [self table out0 log].
    unfold task3_zombie_demo.
    do 4 (erewrite bind_Ret by reflexivity; norm_world).
    unfold bind, run_ps. rewrite Hps. norm_world.
    unfold zombie_intro, zombie_child, pids_in_use. cbn [w_self w_table map].
    rewrite <- !app_assoc. reflexivity. }
  split; [exact Hmain|]. now rewrite Hmain.
Qed.

(** X14.  The orphan demo never returns to [main] and never waits: the parent
    forks once and leaves through [os._exit(0)], so the program's status is 0
    while its child is still in the table, unreaped.  The child prints two
    lines and exits with 0; each line reports what [os.getppid()] finds at
    that moment, the parent while it is still there and the adopting process
    once it is gone. *)
Theorem task3_orphan_run (a : args) (w : world) :
  m_platform m = "Linux" -> a_task a = "3o" ->
  let c := mkChild (m_alloc m (pids_in_use w))
                   (orphan m 10 (m_alloc m (pids_in_use w)) (w_self w)) in
  main m a w =
    (Halt 0,
     mkWorld (w_self w) (w_table w ++ [c])
       (w_out w ++
          [[Txt "[Task 3 - orphan] Demo: parent will exit immediately; child will continue."];
           [Txt "[Parent] PID="; Num (w_self w); Txt " -> exiting immediately. Child PID=";
            Num (c_pid c)]])
       (w_log w ++ [EvFork c])) /\
  exit_status (fst (main m a w)) = Some 0 /\
  c_run c =
    mkBehaviour None
      [[Txt "[Child] Started. PID="; Num (c_pid c); Txt " initial PPID=";
        Num (if m_parent_seen m 0 then w_self w else m_reaper m);
        Txt ". Sleeping "; Num 10; Txt "s..."];
       [Txt "[Child] After sleep: PID="; Num (c_pid c); Txt " now PPID=";
        Num (if m_parent_seen m 1 then w_self w else m_reaper m);
        Txt " (should be 1 if orphaned)."]]
      (Exited 0).
Proof.
  intros HL Ht c.
  assert (Hmain : main m a w =
    (Halt 0,
     mkWorld (w_self w) (w_table w ++ [c])
       (w_out w ++
          [[Txt "[Task 3 - orphan] Demo: parent will exit immediately; child will continue."];
           [Txt "[Parent] PID="; Num (w_self w); Txt " -> exiting immediately. Child PID=";
            Num (c_pid c)]])
       (w_log w ++ [EvFork c]))).
  { unfold main. erewrite bind_Ret by now apply ensure_linux_ok.
    rewrite Ht. cbn [String.eqb Ascii.eqb Bool.eqb].
    subst c. destruct w as [self table out0 log].
    unfold task3_orphan_demo.
    do 3 (erewrite bind_Ret by reflexivity; norm_world).
    erewrite bind_Ret by reflexivity. unfold print, halt. norm_world.
    unfold pids_in_use. cbn [w_self w_table c_pid].
    rewrite <- !app_assoc. reflexivity. }
  split; [exact Hmain|]. split; [now rewrite Hmain | reflexivity].
Qed.

End Task3.

(** ** [str.strip] on the status lines *)

(** Does the text begin with a whitespace character? *)
Definition front_space (sp2 : ascii -> ascii -> bool) (sp3 : ascii -> ascii -> ascii -> bool)
    (l : list ascii) : bool :=
  match l with
  | [] => false
  | a :: s1 =>
      space1 a
      || match s1 with
         | [] => false
         | b :: s2 =>
             sp2 a b
             || match s2 with
                | [] => false
                | c :: _ => sp3 a b c
                end
         end
  end.

Definition begins_with_space (l : list ascii) : bool := front_space space2 space3 l.

Definition ends_with_space (l : list ascii) : bool :=
  front_space (fun a b => space2 b a) (fun a b c => space3 c b a) (rev l).

Section StripFront.

Variable sp2 : ascii -> ascii -> bool.
Variable sp3 : ascii -> ascii -> ascii -> bool.

Lemma strip_front_facts (n : nat) :
  forall l, (List.length l <= n)%nat ->
    front_space sp2 sp3 (strip_front sp2 sp3 l) = false /\
    exists p, l = p ++ strip_front sp2 sp3 l.
Proof.
  induction n as [|n IH]; intros l Hl.
  - destruct l; [|simpl in Hl; lia]. split; [reflexivity | now exists []].
  - destruct l as [|a [|b [|c l]]]; cbn [strip_front].
    + split; [reflexivity | now exists []].
    + destruct (space1 a) eqn:Ha.
      * split; [reflexivity | now exists [a]].
      * split; [simpl; now rewrite Ha, orb_false_r | now exists []].
    + destruct (space1 a) eqn:Ha.
      * destruct (IH [b]) as [H1 [p H2]]; [simpl in *; lia|].
        split; [exact H1|]. exists (a :: p). simpl. now f_equal.
      * destruct (sp2 a b) eqn:Hab.
        -- split; [reflexivity | now exists [a; b]].
        -- split; [simpl; now rewrite Ha, Hab | now exists []].
    + destruct (space1 a) eqn:Ha.
      * destruct (IH (b :: c :: l)) as [H1 [p H2]]; [simpl in *; lia|].
        split; [exact H1|]. exists (a :: p). simpl. now f_equal.
      * destruct (sp2 a b) eqn:Hab.
        -- destruct (IH (c :: l)) as [H1 [p H2]]; [simpl in *; lia|].
           split; [exact H1|]. exists (a :: b :: p). simpl. now do 2 f_equal.
        -- destruct (sp3 a b c) eqn:Habc.
           ++ destruct (IH l) as [H1 [p H2]]; [simpl in *; lia|].
              split; [exact H1|]. exists (a :: b :: c :: p). simpl. now do 3 f_equal.
           ++ split; [simpl; now rewrite Ha, Hab, Habc | now exists []].
Qed.

Lemma strip_front_clean (l : list ascii) :
  front_space sp2 sp3 (strip_front sp2 sp3 l) = false.
Proof. apply (strip_front_facts (List.length l) l (le_n _)). Qed.

Lemma strip_front_suffix (l : list ascii) : exists p, l = p ++ strip_front sp2 sp3 l.
Proof. apply (strip_front_facts (List.length l) l (le_n _)). Qed.

Lemma strip_front_fixed (l : list ascii) :
  front_space sp2 sp3 l = false -> strip_front sp2 sp3 l = l.
Proof.
  destruct l as [|a [|b [|c l]]]; cbn [strip_front front_space]; intros H.
  - reflexivity.
  - rewrite orb_false_r in H. now rewrite H.
  - apply orb_false_iff in H as [Ha H]. rewrite orb_false_r in H. now rewrite Ha, H.
  - apply orb_false_iff in H as [Ha H]. apply orb_false_iff in H as [Hab Habc].
    now rewrite Ha, Hab, Habc.
Qed.

(** A text that does not begin with whitespace keeps that when it is cut
    short. *)
Lemma front_space_prefix (y x : list ascii) :
  front_space sp2 sp3 (y ++ x) = false -> front_space sp2 sp3 y = false.
Proof.
  destruct y as [|a [|b [|c y]]]; cbn [app front_space]; intros H.
  - reflexivity.
  - apply orb_false_iff in H as [Ha _]. now rewrite Ha.
  - apply orb_false_iff in H as [Ha H]. rewrite Ha.
    destruct x; [exact H|]. apply orb_false_iff in H as [Hab _]. now rewrite Hab.
  - exact H.
Qed.

End StripFront.

Definition strip_chars (l : list ascii) : list ascii := rev (rstrip_rev (rev (lstrip l))).

Lemma strip_chars_begins_clean (l : list ascii) : begins_with_space (strip_chars l) = false.
Proof.
  unfold strip_chars, begins_with_space, rstrip_rev.
  destruct (strip_front_suffix (fun a b => space2 b a) (fun a b c => space3 c b a)
              (rev (lstrip l))) as [p Hp].
  apply (f_equal (@rev ascii)) in Hp. rewrite rev_involutive, rev_app_distr in Hp.
  apply (front_space_prefix space2 space3 _ (rev p)). rewrite <- Hp.
  apply strip_front_clean.
Qed.

Lemma strip_chars_ends_clean (l : list ascii) : ends_with_space (strip_chars l) = false.
Proof.
  unfold strip_chars, ends_with_space, rstrip_rev. rewrite rev_involutive.
  apply strip_front_clean.
Qed.

(** X15.  What [strip] hands to [print] neither begins nor ends with a
    whitespace character, of one byte or of more (so it never keeps the
    newline that ends the line of the status file), and stripping it again
    changes nothing. *)
Theorem strip_is_clean (s : string) :
  begins_with_space (list_ascii_of_string (strip s)) = false /\
  ends_with_space (list_ascii_of_string (strip s)) = false /\
  strip (strip s) = strip s.
Proof.
  unfold strip. rewrite !list_ascii_of_string_of_list_ascii.
  fold (strip_chars (list_ascii_of_string s)).
  split; [apply strip_chars_begins_clean|]. split; [apply strip_chars_ends_clean|].
  f_equal. fold (strip_chars (strip_chars (list_ascii_of_string s))).
  unfold strip_chars at 1. unfold lstrip at 1.
  rewrite (strip_front_fixed _ _ _ (strip_chars_begins_clean _)).
  unfold rstrip_rev at 1.
  rewrite (strip_front_fixed _ _ _ (strip_chars_ends_clean _)).
  apply rev_involutive.
Qed.

(** A status line whose name ends with a no-break space (U+00A0), and one
    that ends with an em space (U+2003). *)
Example strip_no_break_space :
  strip (String.append "Name:   ab" (String "194" (String "160" newline))) = "Name:   ab" /\
  strip (String.append "Name:   ab" (String "226" (String "128" (String "131" newline))))
  = "Name:   ab".
Proof. split; reflexivity. Qed.

(** ** The further properties on concrete machines

    A second machine: [yes] never ends, [false] exits with 1, [crash] dies of
    signal 11 and dumps core, nothing else is installed, not even [ps]. *)

Definition other_exec (argv : list string) : exec_outcome :=
  match argv with
  | "yes" :: _ => ExecRuns [[Txt "y"]] Forever
  | "false" :: _ => ExecRuns [] (Exited 1)
  | "crash" :: _ => ExecRuns [] (Killed 11 true)
  | _ => ExecFails (OSError "Permission denied")
  end.

Definition other : machine :=
  mkMachine "Linux" next_pid (fun _ => O) other_exec
    (inl (FileNotFoundError "ps")) 1 (fun k => Nat.eqb k 0) (fun _ => None).

(** An interpreter that was handed a child which never terminates. *)
Definition boot_with_daemon : world :=
  mkWorld 100 [mkChild 60 (mkBehaviour None [] Forever)] [] [].

Lemma task1_nonpositive_count_demo :
  task1_create_children demo (-3) boot_with_child =
    (Ret tt, mkWorld 100 [mkChild 50 (mkBehaviour None [] (Exited 0))]
               [task1_header 100 (-3); task1_done] []).
Proof. apply (task1_nonpositive_count demo (-3) boot_with_child). lia. Defined.

Lemma task5_negative_count_demo :
  exists spawn reaped : list child,
    fst (task5_priority demo (-1) 10 boot) = Ret tt /\
    Z.of_nat (List.length spawn) = 4 /\
    map (fun c => b_nice (c_run c)) spawn = [Some 0; Some 5; Some 10; Some 15] /\
    Permutation reaped spawn.
Proof.
  destruct (task5_negative_count demo (-1) 10 boot)
    as (spawn & reaped & Hrun & Hlen & Hnice & HP); [lia | reflexivity |].
  exists spawn, reaped. rewrite Hrun. auto.
Defined.

Lemma task5_reaps_prior_children_demo :
  exists spawn reaped : list child,
    fst (task5_priority demo 2 10 boot_with_child) = Ret tt /\
    Permutation (map c_pid reaped) (50 :: map c_pid spawn) /\
    List.length reaped = 3%nat.
Proof.
  destruct (task5_reaps_prior_children demo 2 10 boot_with_child)
    as (spawn & reaped & out & Hrun & HP & Hlen); [repeat constructor|].
  exists spawn, reaped. rewrite Hrun. auto.
Defined.

Lemma task2_never_ending_program_demo :
  fst (task2_exec_children other 1 "yes" true boot) = Blocked.
Proof.
  destruct (task2_never_ending_program other 1 "yes" "yes" [] [[Txt "y"]] true boot)
    as (w' & Hrun & _); [lia | reflexivity | reflexivity |].
  rewrite Hrun. reflexivity.
Defined.

Lemma task5_blocks_on_prior_child_demo :
  fst (task5_priority demo 3 10 boot_with_daemon) = Blocked.
Proof.
  destruct (task5_blocks_on_prior_child demo 3 10 boot_with_daemon) as (w' & Hrun & _).
  - apply Exists_cons_hd. reflexivity.
  - rewrite Hrun. reflexivity.
Defined.

Lemma task2_blank_command_demo :
  exists spawn reaped : list child,
    fst (task2_exec_children demo 2 "  " true boot) = Ret tt /\
    Z.of_nat (List.length spawn) = 2 /\
    Permutation reaped spawn /\
    Forall (fun c => snd (waited c) = 256) reaped.
Proof.
  destruct (task2_blank_command demo 2 "  " true boot)
    as (spawn & reaped & Hrun & Hruns & HP & Hst); [reflexivity | reflexivity |].
  exists spawn, reaped. rewrite Hrun. repeat split; auto.
  apply Forall2_length in Hruns. now rewrite <- Hruns.
Defined.

Lemma task2_exec_hands_over_demo :
  (exists spawn reaped : list child,
      fst (task2_exec_children demo 2 "ls -l" true boot) = Ret tt /\
      Forall2 (fun i c => c_run c =
                          mkBehaviour None
                            [child2_hello ["ls"; "-l"] i (c_pid c) 100; [Txt "total 0"]]
                            (Exited 0))
              (range 2) spawn /\
      Forall (fun c => snd (waited c) = 0) reaped) /\
  (exists spawn reaped : list child,
      fst (task2_exec_children other 2 "crash" true boot) = Ret tt /\
      Permutation reaped spawn /\
      Forall (fun c => snd (waited c) = 139) reaped).
Proof.
  split.
  - destruct (task2_exec_hands_over demo 2 "ls -l" "ls" ["-l"] [[Txt "total 0"]] (Exited 0) boot)
      as (spawn & reaped & Hret & _ & Hruns & _ & Hst);
      [reflexivity | reflexivity | discriminate | reflexivity |].
    exists spawn, reaped. auto.
  - destruct (task2_exec_hands_over other 2 "crash" "crash" [] [] (Killed 11 true) boot)
      as (spawn & reaped & Hret & _ & _ & HP & Hst);
      [reflexivity | reflexivity | discriminate | reflexivity |].
    exists spawn, reaped. auto.
Defined.


Lemma task2_refused_command_demo :
  main demo (mkArgs "2" 3 "ls 'x" None 10) boot = (Raise (ValueError "No closing quotation"), boot).
Proof.
  apply (task2_refused_command demo (mkArgs "2" 3 "ls 'x" None 10)
           (ValueError "No closing quotation") boot); reflexivity.
Defined.

Lemma task3_zombie_run_demo :
  task3_zombie_demo demo boot =
    (Ret tt,
     mkWorld 100 []
       (zombie_intro 100
          ++ [[Txt "[Parent] Found defunct lines (zombie):"];
              [Txt "1 Z  1000   101   100 python3 <defunct>"];
              [Txt "[Parent] After wait(): "; Tup 101 0];
              [Txt "[Task 3 - zombie] Demo complete."]])
       [EvFork (zombie_child 101); EvPs; EvWait (Some (101, 0))]).
Proof.
  exact (task3_zombie_run demo
           ["F S   UID   PID  PPID CMD"; "1 Z  1000   101   100 python3 <defunct>"]
           boot eq_refl eq_refl).
Defined.

Lemma task3_zombie_without_ps_demo :
  main other (mkArgs "3z" 3 "ls -l" None 10) boot =
    (Raise (FileNotFoundError "ps"),
     mkWorld 100 [zombie_child 101] (zombie_intro 100) [EvFork (zombie_child 101); EvPs]).
Proof.
  exact (proj1 (task3_zombie_without_ps other (mkArgs "3z" 3 "ls -l" None 10)
                  (FileNotFoundError "ps") boot eq_refl eq_refl eq_refl)).
Defined.

Lemma task3_orphan_run_demo :
  exit_status (fst (main demo (mkArgs "3o" 3 "ls -l" None 10) boot)) = Some 0 /\
  w_table (snd (main demo (mkArgs "3o" 3 "ls -l" None 10) boot)) =
    [mkChild 101 (orphan demo 10 101 100)].
Proof.
  destruct (task3_orphan_run demo (mkArgs "3o" 3 "ls -l" None 10) boot eq_refl eq_refl)
    as (Hmain & Hst & _).
  split; [exact Hst|]. rewrite Hmain. reflexivity.
Defined.

(** ** The filter of the zombie scan *)

Lemma substring_drop_first (k : nat) (L : string) :
  substring k 9 L = "<defunct>" -> substring (S k) 7 L = "defunct".
Proof.
  revert L. induction k as [|k IH]; intros L H.
  - do 9 (destruct L as [|? L]; [discriminate|]; cbn [substring] in H;
          injection H as ? H; subst).
    reflexivity.
  - destruct L as [|c L]; [discriminate|]. cbn [substring] in *. now apply IH.
Qed.

Lemma contains_defunct (L : string) :
  contains "<defunct>" L = true -> contains "defunct" L = true.
Proof.
  unfold contains. destruct (index 0 "<defunct>" L) as [k|] eqn:Hk; [|discriminate].
  intros _. apply index_correct1 in Hk. apply substring_drop_first in Hk.
  destruct (index 0 "defunct" L) eqn:Hd; [reflexivity|]. exfalso.
  apply (index_correct3 0 (S k) "defunct" L Hd); [discriminate | apply Nat.le_0_l | exact Hk].
Qed.

(** X16.  The second test of the scan, ["<defunct>" in L], never adds a line:
    the lines the zombie demo keeps are exactly those that contain
    "defunct". *)
Theorem zombie_scan_keeps_defunct (out : list string) :
  filter (fun L => contains "defunct" L || contains "<defunct>" L) out
  = filter (contains "defunct") out.
Proof.
  apply filter_ext. intros L.
  destruct (contains "defunct" L) eqn:E; [reflexivity|].
  destruct (contains "<defunct>" L) eqn:E'; [|reflexivity].
  apply contains_defunct in E'. congruence.
Qed.
